(** * pdf-processor: the barcode-detection pipeline of [processor/pdf.go]

  A shallow embedding of the Go package [processor]: the image
  preprocessor ([preprocessImage]), the decoder cascade
  ([extractBarcodeFromImage]), the page selection and the orchestration
  of [HandleRequest], followed by the properties stated about them.

  Conventions.
  - Go's [uint8], [uint32] and [int] values are integers of [Z]; every
    conversion to [uint8] is written out as a reduction modulo 256.
  - Go's [float64] is IEEE 754 binary64, taken from the Standard
    Library's executable specification [SpecFloat] with a 53 bit
    mantissa; the operations are evaluated one by one, each rounded to
    nearest even (no fused multiply-add).
  - Go strings and byte slices are [string]s, compared byte by byte.
  - Calls to the operating system, to the PDF library, to the barcode
    library and to the HTTP endpoint are fields of a [World] record;
    what the program does to them is recorded in a trace of [Event]s.
  - Logging is left out: it changes no value the program computes. *)

From Stdlib Require Import ZArith List Lia Bool Ascii String Sorting.Sorted Sorting.Permutation.
From Stdlib Require Import Floats.SpecFloat.
From Stdlib Require Import DecimalString.
From stdpp Require Import base list.
Import ListNotations.

Local Open Scope bool_scope.
Local Open Scope Z_scope.

(** ** Numbers *)

Module Num.

(** Conversion of an integer to Go's [uint8]: the low eight bits. *)
Definition uint8 (z : Z) : Z := z mod 256.

(** [a - b] on [uint8] operands wraps around. *)
Definition sub8 (a b : Z) : Z := uint8 (a - b).

Definition prec : Z := 53.
Definition emax : Z := 1024.

Definition float64 : Type := spec_float.

(** [float64(n)] for an integer [n]. *)
Definition float64_of_Z (n : Z) : float64 := binary_normalize prec emax n 0 false.

Definition fadd : float64 -> float64 -> float64 := SFadd prec emax.
Definition fmul : float64 -> float64 -> float64 := SFmul prec emax.
Definition fdiv : float64 -> float64 -> float64 := SFdiv prec emax.

(** The [float64] nearest to the decimal constant [n / 1000]: both
    operands are exact and the division is correctly rounded. *)
Definition milli (n : Z) : float64 := fdiv (float64_of_Z n) (float64_of_Z 1000).

(** Conversion of a [float64] to an integer: the fraction is discarded
    (truncation toward zero). *)
Definition trunc (f : float64) : Z :=
  match f with
  | S754_finite s m e =>
      let a := if 0 <=? e then Z.pos m * 2 ^ e else Z.pos m / 2 ^ (- e) in
      if s then - a else a
  | _ => 0
  end.

(** [uint8(f)] for a [float64] [f]. *)
Definition uint8_of_float (f : float64) : Z := uint8 (trunc f).

End Num.

(** ** Images: [image.Rectangle], [image.Image], [image.Gray] *)

Module Img.
Import Num.

Record Rectangle := { MinX : Z; MinY : Z; MaxX : Z; MaxY : Z }.

Definition Dx (r : Rectangle) : Z := MaxX r - MinX r.
Definition Dy (r : Rectangle) : Z := MaxY r - MinY r.

(** A rectangle is well-formed when [Min.X <= Max.X] and [Min.Y <= Max.Y]. *)
Definition well_formed (r : Rectangle) : bool :=
  (MinX r <=? MaxX r) && (MinY r <=? MaxY r).

(** [Point{x, y}.In(r)] *)
Definition Point_In (x y : Z) (r : Rectangle) : bool :=
  (MinX r <=? x) && (x <? MaxX r) && (MinY r <=? y) && (y <? MaxY r).

(** What [Color.RGBA()] returns: four [uint32] samples. *)
Record RGBA := { R : Z; G : Z; B : Z; A : Z }.

(** [image.Image]: bounds and a pixel accessor. The bounds of an image
    are well-formed; [image.NewGray] panics on a rectangle that is not. *)
Record Image := {
  Bounds : Rectangle;
  At : Z -> Z -> RGBA;
  Bounds_wf : well_formed Bounds = true
}.

(** [image.Gray]: the pixel buffer in row-major order. *)
Record Gray := { Pix : list Z; Stride : Z; Rect : Rectangle }.

(** [image.NewGray(r)] for a well-formed [r]: a zeroed buffer of
    [Dx * Dy] bytes. *)
Definition NewGray (r : Rectangle) : Gray :=
  {| Pix := replicate (Z.to_nat (Dx r * Dy r)) 0; Stride := Dx r; Rect := r |}.

(** [Gray.PixOffset] *)
Definition PixOffset (g : Gray) (x y : Z) : Z :=
  (y - MinY (Rect g)) * Stride g + (x - MinX (Rect g)).

(** [gray.Set(x, y, color.Gray{Y: v})]: nothing happens outside [Rect]. *)
Definition GraySet (g : Gray) (x y v : Z) : Gray :=
  if Point_In x y (Rect g)
  then {| Pix := <[Z.to_nat (PixOffset g x y) := v]> (Pix g);
          Stride := Stride g; Rect := Rect g |}
  else g.

(** [gray.GrayAt(x, y).Y]: the zero colour outside [Rect]. *)
Definition GrayAt (g : Gray) (x y : Z) : Z :=
  if Point_In x y (Rect g)
  then default 0 (Pix g !! Z.to_nat (PixOffset g x y))
  else 0.

(** [for i := lo; i < hi; i++ { s = body(i, s) }] *)
Definition loop {S : Type} (lo hi : Z) (body : Z -> S -> S) (s : S) : S :=
  foldl (fun s i => body i s) s (seqZ lo (hi - lo)).

(** The two nested loops of [preprocessImage]: rows outside, columns inside. *)
Definition scan {S : Type} (r : Rectangle) (body : Z -> Z -> S -> S) (s : S) : S :=
  loop (MinY r) (MaxY r) (fun y s => loop (MinX r) (MaxX r) (fun x s => body x y s) s) s.

(** The pixels of [r] in the order [scan] visits them. *)
Definition points (r : Rectangle) : list (Z * Z) :=
  y ← seqZ (MinY r) (MaxY r - MinY r);
  x ← seqZ (MinX r) (MaxX r - MinX r);
  [(x, y)].

End Img.

(** ** The image preprocessor *)

Module Pre.
Import Num Img.

(** The constants [0.299], [0.587] and [0.114] as [float64] values. *)
Definition c_0_299 : float64 := Eval vm_compute in milli 299.
Definition c_0_587 : float64 := Eval vm_compute in milli 587.
Definition c_0_114 : float64 := Eval vm_compute in milli 114.

(** [uint8(0.299*float64(r>>8) + 0.587*float64(g>>8) + 0.114*float64(b>>8))] *)
Definition luminance (c : RGBA) : Z :=
  uint8_of_float
    (fadd (fadd (fmul c_0_299 (float64_of_Z (Z.shiftr (R c) 8)))
                (fmul c_0_587 (float64_of_Z (Z.shiftr (G c) 8))))
          (fmul c_0_114 (float64_of_Z (Z.shiftr (B c) 8)))).

(** State of the first pass: [min], [max] and the grayscale image. *)
Record Pass1 := { p_min : Z; p_max : Z; p_gray : Gray }.

(** Body of the first pass at pixel [(x, y)]. *)
Definition pass1_body (img : Image) (x y : Z) (s : Pass1) : Pass1 :=
  let grayVal := luminance (At img x y) in
  let mn := if grayVal <? p_min s then grayVal else p_min s in
  let mx := if p_max s <? grayVal then grayVal else p_max s in
  {| p_min := mn; p_max := mx; p_gray := GraySet (p_gray s) x y grayVal |}.

(** First pass: [var min, max uint8 = 255, 0], then the loops. *)
Definition firstPass (img : Image) : Pass1 :=
  scan (Bounds img) (pass1_body img)
       {| p_min := 255; p_max := 0; p_gray := NewGray (Bounds img) |}.

(** The branch taken after the first pass. [Some (min, max)]: go on to
    the second pass with these values; [None]: return the grayscale
    image. *)
Definition contrastDecision (bounds : Rectangle) (mn mx : Z) : option (Z * Z) :=
  if (Dx bounds <? 100) || (Dy bounds <? 100) then Some (0, 255)
  else if sub8 mx mn <? 30 then None
  else Some (mn, mx).

(** [uint8((float64(a) / float64(b)) * 255)] *)
Definition stretch (a b : Z) : Z :=
  uint8_of_float (fmul (fdiv (float64_of_Z a) (float64_of_Z b)) (float64_of_Z 255)).

(** [uint8((float64(original-min) / float64(max-min)) * 255)], the two
    differences being taken on [uint8]. *)
Definition normalize (original mn mx : Z) : Z :=
  stretch (sub8 original mn) (sub8 mx mn).

(** [if normalized > 128 { 255 } else { 0 }] *)
Definition threshold (normalized : Z) : Z :=
  if 128 <? normalized then 255 else 0.

(** Body of the second pass at pixel [(x, y)]. *)
Definition pass2_body (gray : Gray) (mn mx : Z) (x y : Z) (enhanced : Gray) : Gray :=
  let original := GrayAt gray x y in
  GraySet enhanced x y (threshold (normalize original mn mx)).

(** Second pass: contrast stretching and thresholding into a new image. *)
Definition secondPass (bounds : Rectangle) (gray : Gray) (mn mx : Z) : Gray :=
  scan bounds (pass2_body gray mn mx) (NewGray bounds).

Definition preprocessImage (img : Image) : Gray :=
  let bounds := Bounds img in
  let s := firstPass img in
  match contrastDecision bounds (p_min s) (p_max s) with
  | Some (mn, mx) => secondPass bounds (p_gray s) mn mx
  | None => p_gray s
  end.

End Pre.

(** ** Go library functions on strings: [strconv], [strings], [path/filepath], [sort] *)

Module Str.

Definition is_digit (c : ascii) : bool :=
  let n := Z.of_N (N_of_ascii c) in (48 <=? n) && (n <=? 57).

Definition digit_val (c : ascii) : Z := Z.of_N (N_of_ascii c) - 48.

(** The decimal value of a string of digits, [None] at the first other byte. *)
Fixpoint parse_digits (s : string) (acc : Z) : option Z :=
  match s with
  | EmptyString => Some acc
  | String c s' =>
      if is_digit c then parse_digits s' (acc * 10 + digit_val c) else None
  end.

(** Go's [int] is 64 bits wide on the platforms the program is built for. *)
Definition minInt : Z := - 2 ^ 63.
Definition maxInt : Z := 2 ^ 63 - 1.

(** [strconv.Atoi]: an optional sign, then one or more decimal digits;
    [None] stands for a non-nil error (syntax or range). *)
Definition Atoi (s : string) : option Z :=
  match s with
  | EmptyString => None
  | String c rest =>
      let neg := Ascii.eqb c "-"%char in
      let digits := if neg || Ascii.eqb c "+"%char then rest else s in
      match digits with
      | EmptyString => None
      | _ =>
          match parse_digits digits 0 with
          | None => None
          | Some n =>
              let v := if neg then - n else n in
              if (minInt <=? v) && (v <=? maxInt) then Some v else None
          end
      end
  end.

(** [strings.Split(s, sep)] for a separator of one byte. *)
Fixpoint Split (s : string) (sep : ascii) : list string :=
  match s with
  | EmptyString => [EmptyString]
  | String c s' =>
      if Ascii.eqb c sep then EmptyString :: Split s' sep
      else match Split s' sep with
           | part :: parts => String c part :: parts
           | [] => [String c EmptyString]
           end
  end.

(** State of the backward scan of [filepath.Ext] over a suffix. *)
Inductive ExtScan := ExtFound (ext : string) | ExtSeparator | ExtNone.

Fixpoint ext_scan (path : string) : ExtScan :=
  match path with
  | EmptyString => ExtNone
  | String c rest =>
      match ext_scan rest with
      | ExtNone =>
          if Ascii.eqb c "."%char then ExtFound path
          else if Ascii.eqb c "/"%char then ExtSeparator
          else ExtNone
      | found => found
      end
  end.

(** [filepath.Ext]: the suffix from the last dot of the last path
    element, empty when there is none. *)
Definition Ext (path : string) : string :=
  match ext_scan path with
  | ExtFound ext => ext
  | _ => EmptyString
  end.

(** Go's [<=] on strings: byte-wise lexicographic order. *)
Definition string_le (a b : string) : Prop := String.leb a b = true.

Fixpoint insert_sorted (x : string) (l : list string) : list string :=
  match l with
  | [] => [x]
  | y :: l' => if String.leb x y then x :: l else y :: insert_sorted x l'
  end.

(** [sort.Strings]: the slice rearranged in increasing order. The order
    is total and antisymmetric, so the result does not depend on the
    sorting algorithm; it is computed here by insertion. *)
Definition Strings (l : list string) : list string :=
  foldr insert_sorted [] l.

(** [s[0:n]] when [n <= len(s)]. *)
Definition slice_to (s : string) (n : nat) : string := substring 0 n s.

End Str.

(** ** The decoder cascade *)

Module Dec.
Import Img Pre.

(** The readers of [gozxing/oned] the program constructs. *)
Inductive Reader := UPCEAN | Code128 | Code39 | Code93 | ITF | CodaBar.

(** A successful [gozxing.Result]: text and barcode format. *)
Record Result := { GetText : string; GetBarcodeFormat : string }.

Definition error : Type := string.

(** The barcode library as the program sees it: construction of the
    binary bitmap, and [Decode] of each reader on a bitmap with the
    hints [TRY_HARDER] and [PURE_BARCODE]. *)
Record Library (Bitmap : Type) := {
  NewBinaryBitmapFromImage : Gray -> error + Bitmap;
  Decode : Reader -> Bitmap -> error + Result
}.
Arguments NewBinaryBitmapFromImage {Bitmap} _ _.
Arguments Decode {Bitmap} _ _ _.

(** The slice [readers], in the order of the source. *)
Definition readers : list (string * Reader) :=
  [ ("UPC/EAN"%string, UPCEAN); ("Code128"%string, Code128);
    ("Code39"%string, Code39); ("Code93"%string, Code93);
    ("ITF"%string, ITF); ("CodaBar"%string, CodaBar) ].

(** [for _, r := range readers]: returns the readers whose [Decode] was
    called, in order, and the outcome: the text of the first success, or
    the last error once every reader failed. *)
Fixpoint tryReaders {Bitmap : Type} (lib : Library Bitmap) (bmp : Bitmap)
         (rs : list (string * Reader)) (lastErr : option error)
  : list Reader * (option error + string) :=
  match rs with
  | [] => ([], inl lastErr)
  | (_, r) :: rs' =>
      match Decode lib r bmp with
      | inr result => ([r], inr (GetText result))
      | inl err =>
          let '(attempted, out) := tryReaders lib bmp rs' (Some err) in
          (r :: attempted, out)
      end
  end.

(** [fmt.Errorf] with the verb [%v] applied to an error that may be nil. *)
Definition show_error (e : option error) : string :=
  match e with Some msg => msg | None => "<nil>"%string end.

(** [extractBarcodeFromImage]: the readers attempted and the result. *)
Definition extractBarcodeFromImage {Bitmap : Type} (lib : Library Bitmap) (img : Image)
  : list Reader * (error + string) :=
  let processedImg := preprocessImage img in
  match NewBinaryBitmapFromImage lib processedImg with
  | inl err => ([], inl ("error creating binary bitmap: " ++ err)%string)
  | inr bmp =>
      match tryReaders lib bmp readers None with
      | (attempted, inr text) => (attempted, inr text)
      | (attempted, inl lastErr) =>
          (attempted,
           inl ("no barcode found with any reader, last error: " ++ show_error lastErr)%string)
      end
  end.

End Dec.

(** ** The request handler *)

Module Handler.
Import Img Pre Str Dec.

Record ResponseBody := { Bucket : string; Key : string; Barcodes : list string }.

(** The [Body] of a response: a literal text, or the value that was
    handed to [json.Marshal] (the encoding itself is not modelled). *)
Inductive BodyText := Text (s : string) | Json (b : ResponseBody).

Record Response := { StatusCode : Z; Body : BodyText }.

Record BarcodeData := { S3Key : string; BarcodeArray : list string }.

(** [os.DirEntry] *)
Record DirEntry := { Name : string; IsDir : bool }.

(** [events.S3EventRecord]: the two fields the handler reads. *)
Record S3EventRecord := { BucketName : string; ObjectKey : string }.

(** Everything outside the program. File names are relative to the
    temporary directory of the invocation. *)
Record World := {
  Getenv : string -> string;
  (** [os.ReadFile(testPath)] *)
  ReadFile : string -> error + string;
  (** [config.LoadDefaultConfig] *)
  LoadDefaultConfig : option error;
  (** [s3Client.GetObject], then [buf.ReadFrom(result.Body)] *)
  GetObject : string -> string -> error + (error + string);
  MkdirTemp : option error;
  (** [os.WriteFile(tmpPDF, pdfBytes, 0644)] *)
  WriteFile : string -> option error;
  (** [os.MkdirAll(tmpPagesDir, 0755)] *)
  MkdirAll : option error;
  (** [api.ExtractImagesFile] on the document written *)
  ExtractImagesFile : string -> option error;
  (** [os.ReadDir(tmpDir)] after the extraction *)
  ReadDir : error + list DirEntry;
  (** [os.Open] followed by [image.Decode] *)
  OpenImage : string -> error + Image;
  Bitmap : Type;
  Lib : Library Bitmap;
  (** [http.NewRequest("POST", url, body)] *)
  NewRequest : string -> option error;
  (** [client.Do(req)]: a transport error or the status code *)
  Do : string -> BarcodeData -> error + Z
}.

(** What the handler does to the world, in order. *)
Inductive Event :=
| EvExtractImages
| EvOpenImage (fileName : string)
| EvDecode (r : Reader)
| EvPost (url : string) (data : BarcodeData).

(** How an invocation ends: [return resp, err], or a run-time panic. *)
Inductive Outcome := Returned (resp : Response) (err : option error) | Panicked.

(** Computations of the handler: they extend the trace and either go on
    with a value or leave the handler with an outcome. *)
Definition M (A : Type) : Type := list Event -> (Outcome + A) * list Event.

Definition ret {A : Type} (a : A) : M A := fun t => (inr a, t).

Definition bind {A B : Type} (m : M A) (k : A -> M B) : M B :=
  fun t => match m t with
           | (inl o, t') => (inl o, t')
           | (inr a, t') => k a t'
           end.

Definition exit {A : Type} (o : Outcome) : M A := fun t => (inl o, t).

Definition emit (e : Event) : M unit := fun t => (inr tt, t ++ [e]).

Definition emitAll (es : list Event) : M unit := fun t => (inr tt, t ++ es).

#[export] Instance M_ret : MRet M := @ret.
#[export] Instance M_bind : MBind M := fun A B k m => bind m k.

(** [return Response{StatusCode: code, Body: text}, err] *)
Definition fail {A : Type} (code : Z) (text : string) (err : error) : M A :=
  exit (Returned {| StatusCode := code; Body := Text text |} (Some err)).

(** [if err != nil { return Response{...}, err }] *)
Definition check (r : option error) (code : Z) (text : string) : M unit :=
  match r with Some err => fail code text err | None => ret tt end.

(** [s] is not the empty string. *)
Definition nonempty (s : string) : bool := negb (String.eqb s EmptyString).

(** Lines 275-282: the page limit read at the start of the handler. *)
Definition pageLimit_initial (limitStr : string) : Z :=
  if nonempty limitStr then
    match Atoi limitStr with
    | Some limit => if 0 <? limit then limit else 1
    | None => 1
    end
  else 1.

(** Lines 351-355 and 368-373: [pageLimit] is assigned again from
    [strconv.Atoi(pageRange)]; the value it had is dropped. *)
Definition pageLimit_final (limitStr : string) (pageLimit : Z) : Z :=
  let pageRange := if nonempty limitStr then limitStr else "1"%string in
  match Atoi pageRange with
  | Some n => n
  | None => 1
  end.

(** The page limit in force when the files are selected. *)
Definition pageLimit_used (limitStr : string) : Z :=
  pageLimit_final limitStr (pageLimit_initial limitStr).

(** [getS3Client]: an error, or whether the client returned is non-nil. *)
Definition getS3Client (w : World) : error + bool :=
  if nonempty (Getenv w "TEST_PDF_PATH"%string) then inr false
  else match LoadDefaultConfig w with
       | Some err => inl err
       | None => inr true
       end.

(** Lines 288-324: the document bytes with their bucket and key. *)
Definition fetchDocument (w : World) (s3Event : list S3EventRecord)
  : M (string * string * string) :=
  let testPath := Getenv w "TEST_PDF_PATH"%string in
  if nonempty testPath then
    match ReadFile w testPath with
    | inl err => fail 500 "Error reading test PDF"%string err
    | inr pdfBytes => ret (pdfBytes, "test-bucket"%string, testPath)
    end
  else
    match s3Event with
    | [] => exit Panicked
    | record :: _ =>
        let bucket := BucketName record in
        let key := ObjectKey record in
        match getS3Client w with
        | inl err => fail 500 "Error initializing S3 client"%string err
        | inr false => exit Panicked
        | inr true =>
            match GetObject w bucket key with
            | inl err => fail 500 "Error getting object from S3"%string err
            | inr (inl err) => fail 500 "Error reading PDF"%string err
            | inr (inr pdfBytes) => ret (pdfBytes, bucket, key)
            end
        end
    end.

(** Lines 328-336: validation of the document bytes. *)
Definition validate (pdfBytes : string) : M unit :=
  if (String.length pdfBytes =? 0)%nat then
    fail 400 "Empty PDF file"%string "empty PDF file"%string
  else if (String.length pdfBytes <? 4)%nat
          || negb (String.eqb (slice_to pdfBytes 4) "%PDF"%string) then
    fail 400 "Invalid PDF format"%string "invalid PDF format"%string
  else ret tt.

(** The test of lines 420-428 on one directory entry. *)
Definition keep (pageLimit : Z) (file : DirEntry) : bool :=
  if negb (IsDir file) && negb (String.eqb (Ext (Name file)) ".pdf"%string) then
    match Split (Name file) "_"%char with
    | _ :: part1 :: _ =>
        match Atoi part1 with
        | Some pageNum => pageNum <=? pageLimit
        | None => false
        end
    | _ => false
    end
  else false.

(** Lines 417-434: the names kept, in the order of the listing, then sorted. *)
Definition selectFiles (files : list DirEntry) (pageLimit : Z) : list string :=
  let sortedFiles :=
    foldl (fun sortedFiles file =>
             if keep pageLimit file then sortedFiles ++ [Name file] else sortedFiles)
          [] files in
  Strings sortedFiles.

(** [callRubyEndpoint] of [processor/pdf.go]; its error is only logged
    by the handler. *)
Definition callRubyEndpoint (w : World) (data : BarcodeData) : M (option error) :=
  let apiEndpoint := Getenv w "API_ENDPOINT"%string in
  if negb (nonempty apiEndpoint) then
    ret (Some "API_ENDPOINT environment variable not set"%string)
  else
    match NewRequest w apiEndpoint with
    | Some err => ret (Some ("error creating request: " ++ err)%string)
    | None =>
        emit (EvPost apiEndpoint data) ;;
        match Do w apiEndpoint data with
        | inl err => ret (Some ("error making request: " ++ err)%string)
        | inr status =>
            if status =? 200 then ret None
            else ret (Some "API returned non-200 status"%string)
        end
    end.

(** Lines 437-470: the loop over the selected files. *)
Fixpoint processFiles (w : World) (key : string) (files : list string)
         (foundBarcodes : list string) : M (list string) :=
  match files with
  | [] => ret foundBarcodes
  | fileName :: rest =>
      emit (EvOpenImage fileName) ;;
      match OpenImage w fileName with
      | inl _ => processFiles w key rest foundBarcodes
      | inr img =>
          let '(attempted, res) := extractBarcodeFromImage (Lib w) img in
          emitAll (map EvDecode attempted) ;;
          match res with
          | inl _ => processFiles w key rest foundBarcodes
          | inr barcode =>
              if nonempty barcode then
                let foundBarcodes := foundBarcodes ++ [barcode] in
                let data := {| S3Key := key; BarcodeArray := [barcode] |} in
                callRubyEndpoint w data ;;
                processFiles w key rest foundBarcodes
              else processFiles w key rest foundBarcodes
          end
      end
  end.

(** Lines 472-501: the response; nothing is sent here. *)
Definition respond (bucket key : string) (foundBarcodes : list string) : Outcome :=
  if (0 <? length foundBarcodes)%nat then
    Returned {| StatusCode := 200;
                Body := Json {| Bucket := bucket; Key := key; Barcodes := foundBarcodes |} |}
             None
  else
    Returned {| StatusCode := 200;
                Body := Json {| Bucket := bucket; Key := key; Barcodes := [] |} |}
             None.

(** The body of [HandleRequest]. The copies made under [TEST_DEBUG] and the
    listing that is only logged are left out: they write outside the
    temporary directory and change nothing the handler reads. *)
Definition handler (w : World) (s3Event : list S3EventRecord) : M Outcome :=
  let limitStr := Getenv w "PDF_PAGE_LIMIT"%string in
  let pageLimit := pageLimit_initial limitStr in
  '(pdfBytes, bucket, key) ← fetchDocument w s3Event;
  validate pdfBytes ;;
  check (MkdirTemp w) 500 "Error creating temp directory"%string ;;
  check (WriteFile w pdfBytes) 500 "Error writing temporary PDF"%string ;;
  check (MkdirAll w) 500 "Error creating pages directory"%string ;;
  let pageLimit := pageLimit_final limitStr pageLimit in
  emit EvExtractImages ;;
  check (ExtractImagesFile w pdfBytes) 500 "Error extracting images from PDF"%string ;;
  match ReadDir w with
  | inl err => fail 500 "Error reading extracted images"%string err
  | inr files =>
      let processFiles_ := selectFiles files pageLimit in
      foundBarcodes ← processFiles w key processFiles_ [];
      ret (respond bucket key foundBarcodes)
  end.

(** [HandleRequest]: the outcome and the trace of the invocation. *)
Definition HandleRequest (w : World) (s3Event : list S3EventRecord)
  : Outcome * list Event :=
  match handler w s3Event [] with
  | (inl o, t) => (o, t)
  | (inr o, t) => (o, t)
  end.

End Handler.

Import Num Img Pre Str Dec Handler.

(** * Notions used in the statements *)

(** ** Pixel buffers *)

(** The shape of a grayscale image allocated for [r]. *)
Definition shaped (r : Rectangle) (g : Gray) : Prop :=
  Rect g = r /\ Stride g = Dx r /\ length (Pix g) = Z.to_nat (Dx r * Dy r).

(** Writing [f x y] at every pixel of a list, as both passes do. *)
Definition paint (f : Z -> Z -> Z) (g : Gray) (ps : list (Z * Z)) : Gray :=
  foldl (fun g p => GraySet g p.1 p.2 (f p.1 p.2)) g ps.

(** The luminance of the source pixel at [(x, y)]. *)
Definition lum (img : Image) (x y : Z) : Z := luminance (At img x y).

(** The first pass over a list of pixels, from any state. *)
Definition pass1_over (img : Image) (s : Pass1) (ps : list (Z * Z)) : Pass1 :=
  foldl (fun s p => pass1_body img p.1 p.2 s) s ps.

(** The contrast decision taken for an image. *)
Definition decision (img : Image) : option (Z * Z) :=
  contrastDecision (Bounds img) (p_min (firstPass img)) (p_max (firstPass img)).

(** The specification's formula for the stretched value:
    [(original - min) / (max - min) * 255] rounded to the nearest integer. *)
Definition spec_normalized (original mn mx : Z) : Z :=
  (2 * 255 * (original - mn) + (mx - mn)) / (2 * (mx - mn)).

(** ** Decoding *)

(** [Decode] of reader [r] returns an error. *)
Definition fails {Bitmap : Type} (lib : Library Bitmap) (bmp : Bitmap) (r : Reader) : Prop :=
  exists err, Decode lib r bmp = inl err.

(** The error the loop ends with when every reader of [rs] fails. *)
Definition final_error {Bitmap : Type} (lib : Library Bitmap) (bmp : Bitmap)
           (rs : list Reader) (lastErr : option error) : option error :=
  foldl (fun e r => match Decode lib r bmp with inl err => Some err | inr _ => e end)
        lastErr rs.

(** ** Traces *)

(** Every request posted so far carries exactly one barcode. *)
Definition per_page (t : list Event) : Prop :=
  forall url data, List.In (EvPost url data) t -> exists barcode, BarcodeArray data = [barcode].

(** ** Concrete inputs *)

(** A pixel with 8-bit samples [r], [g], [b], as [color.RGBA{r, g, b, 255}.RGBA()]
    returns it. *)
Definition pixel (r g b : Z) : RGBA :=
  {| R := r * 257; G := g * 257; B := b * 257; A := 65535 |}.

(** A 2 x 2 image: white on one diagonal, dark green on the other. *)
Definition img_small : Image :=
  {| Bounds := {| MinX := 0; MinY := 0; MaxX := 2; MaxY := 2 |};
     At := fun x y => if x + y =? 1 then pixel 255 255 255 else pixel 18 116 1;
     Bounds_wf := eq_refl |}.

(** A 100 x 100 image of a single colour, of luminance 126. *)
Definition img_flat : Image :=
  {| Bounds := {| MinX := 0; MinY := 0; MaxX := 100; MaxY := 100 |};
     At := fun _ _ => pixel 120 130 125;
     Bounds_wf := eq_refl |}.

(** A 100 x 100 image with one black pixel, one pixel of luminance 200,
    and luminance 101 everywhere else. *)
Definition img_mid : Image :=
  {| Bounds := {| MinX := 0; MinY := 0; MaxX := 100; MaxY := 100 |};
     At := fun x y =>
       if (x =? 0) && (y =? 0) then pixel 0 0 0
       else if (x =? 1) && (y =? 0) then pixel 200 201 200
       else pixel 100 102 103;
     Bounds_wf := eq_refl |}.

(** The listing of the page-selection scenario. *)
Definition listing_example : list DirEntry :=
  [ {| Name := "input.pdf"; IsDir := false |};
    {| Name := "page_10_a.png"; IsDir := false |};
    {| Name := "page_1_a.png"; IsDir := false |};
    {| Name := "page_2_a.png"; IsDir := false |} ].

(** A library in which only the Code39 and ITF readers decode the bitmap. *)
Definition lib_code39 : Library Gray :=
  {| NewBinaryBitmapFromImage := fun g => inr g;
     Decode := fun r _ =>
       match r with
       | Code39 => inr {| GetText := "ABC123"; GetBarcodeFormat := "CODE_39" |}
       | ITF => inr {| GetText := "0012"; GetBarcodeFormat := "ITF" |}
       | _ => inl "NotFoundException"%string
       end |}.

(** A local run on the file doc.pdf with the endpoint configured, every
    system call succeeding and the endpoint answering 200. The
    extraction leaves [listing] in the temporary directory. *)
Definition world_of (pdfBytes : string) (listing : list DirEntry) : World :=
  {| Getenv := fun name =>
       if String.eqb name "TEST_PDF_PATH" then "doc.pdf"%string
       else if String.eqb name "API_ENDPOINT" then "http://api.test/barcodes"%string
       else EmptyString;
     ReadFile := fun _ => inr pdfBytes;
     LoadDefaultConfig := None;
     GetObject := fun _ _ => inl "no such key"%string;
     MkdirTemp := None;
     WriteFile := fun _ => None;
     MkdirAll := None;
     ExtractImagesFile := fun _ => None;
     ReadDir := inr listing;
     OpenImage := fun _ => inr img_small;
     Bitmap := Gray;
     Lib := lib_code39;
     NewRequest := fun _ => None;
     Do := fun _ _ => inr 200 |}.

(** A document without images: the directory holds the copy of the
    document and the pages directory. *)
Definition world_no_images : World :=
  world_of "%PDF-1.4"
           [ {| Name := "input.pdf"; IsDir := false |};
             {| Name := "pages"; IsDir := true |} ].

(** A document with one image on page 1, which holds a Code39 barcode. *)
Definition world_one_barcode : World :=
  world_of "%PDF-1.4"
           [ {| Name := "input.pdf"; IsDir := false |};
             {| Name := "page_1_Im0.png"; IsDir := false |};
             {| Name := "pages"; IsDir := true |} ].

(** A file that is not a PDF document. *)
Definition world_not_pdf : World :=
  world_of "GIF89a" [ {| Name := "input.pdf"; IsDir := false |} ].

(** * Further notions *)

(** ** Preprocessing *)
(** The pixel written by [preprocessImage] at [(x, y)]. *)
Definition output (img : Image) (x y : Z) : Z := GrayAt (preprocessImage img) x y.

(** An image without pixels. *)
Definition img_empty : Image :=
  {| Bounds := {| MinX := 3; MinY := 4; MaxX := 3; MaxY := 9 |};
     At := fun _ _ => pixel 10 20 30;
     Bounds_wf := eq_refl |}.

(** ** Decoding and selection *)
(** The readers in the order of the cascade. *)
Definition order : list Reader := [UPCEAN; Code128; Code39; Code93; ITF; CodaBar].

(** A library in which no reader decodes the bitmap; each reader reports
    an error of its own. *)
Definition lib_none : Library Gray :=
  {| NewBinaryBitmapFromImage := fun g => inr g;
     Decode := fun r _ =>
       inl match r with
           | UPCEAN => "upc/ean: not found"
           | Code128 => "code128: not found"
           | Code39 => "code39: not found"
           | Code93 => "code93: not found"
           | ITF => "itf: not found"
           | CodaBar => "codabar: not found"
           end%string |}.

(** The bytes of a string. *)
Definition bytes_of (s : string) : list ascii := list_ascii_of_string s.

(** ** Runs of the handler *)
(** The files opened along a trace, in order. *)
Definition opened (t : list Event) : list string :=
  omap (fun e => match e with EvOpenImage fileName => Some fileName | _ => None end) t.

(** The requests posted along a trace, in order. *)
Definition posted (t : list Event) : list (string * BarcodeData) :=
  omap (fun e => match e with EvPost url data => Some (url, data) | _ => None end) t.

(** The readers called along a trace, in order. *)
Definition decoded (t : list Event) : list Reader :=
  omap (fun e => match e with EvDecode r => Some r | _ => None end) t.

(** The barcode a file adds to the batch, if any: the file must open and
    decode as an image, and the cascade must return a text that is not
    empty. *)
Definition barcode_of (w : World) (fileName : string) : option string :=
  match OpenImage w fileName with
  | inl _ => None
  | inr img =>
      match snd (extractBarcodeFromImage (Lib w) img) with
      | inr barcode => if nonempty barcode then Some barcode else None
      | inl _ => None
      end
  end.

(** The batch collected from a sequence of files. *)
Definition batch_of (w : World) (files : list string) : list string :=
  omap (barcode_of w) files.

(** What [callRubyEndpoint] adds to the trace. *)
Definition notify_events (w : World) (data : BarcodeData) : list Event :=
  let apiEndpoint := Getenv w "API_ENDPOINT"%string in
  if nonempty apiEndpoint then
    match NewRequest w apiEndpoint with
    | Some _ => []
    | None => [EvPost apiEndpoint data]
    end
  else [].

(** What the scan of one file adds to the trace. *)
Definition file_events (w : World) (key fileName : string) : list Event :=
  EvOpenImage fileName ::
  match OpenImage w fileName with
  | inl _ => []
  | inr img =>
      map EvDecode (fst (extractBarcodeFromImage (Lib w) img)) ++
      match barcode_of w fileName with
      | Some barcode => notify_events w {| S3Key := key; BarcodeArray := [barcode] |}
      | None => []
      end
  end.

(** What the scan of a sequence of files adds to the trace. *)
Definition scan_events (w : World) (key : string) (files : list string) : list Event :=
  fileName ← files; file_events w key fileName.

(** The files selected in a world whose temporary directory lists [files]. *)
Definition selected (w : World) (files : list DirEntry) : list string :=
  selectFiles files (pageLimit_used (Getenv w "PDF_PAGE_LIMIT"%string)).

(** Every step before the scan succeeds: the document is fetched, it
    carries the magic header, the temporary files are written, the images
    are extracted and the directory is listed. *)
Definition ready (w : World) (s3Event : list S3EventRecord)
           (pdfBytes bucket key : string) (files : list DirEntry) : Prop :=
  fetchDocument w s3Event [] = (inr (pdfBytes, bucket, key), []) /\
  String.prefix "%PDF" pdfBytes = true /\
  MkdirTemp w = None /\ WriteFile w pdfBytes = None /\ MkdirAll w = None /\
  ExtractImagesFile w pdfBytes = None /\
  ReadDir w = inr files.

(** The world [w] with another endpoint behind [http.NewRequest] and
    [client.Do]. *)
Definition with_notifier (w : World) (newRequest : string -> option error)
           (do : string -> BarcodeData -> error + Z) : World :=
  {| Getenv := Getenv w; ReadFile := ReadFile w; LoadDefaultConfig := LoadDefaultConfig w;
     GetObject := GetObject w; MkdirTemp := MkdirTemp w; WriteFile := WriteFile w;
     MkdirAll := MkdirAll w; ExtractImagesFile := ExtractImagesFile w; ReadDir := ReadDir w;
     OpenImage := OpenImage w; Bitmap := Bitmap w; Lib := Lib w;
     NewRequest := newRequest; Do := do |}.

(** An S3 run: [TEST_PDF_PATH] is not set. *)
Definition world_s3 : World :=
  {| Getenv := fun _ => EmptyString;
     ReadFile := fun _ => inl "no such file"%string;
     LoadDefaultConfig := None;
     GetObject := fun _ _ => inr (inr "%PDF-1.7"%string);
     MkdirTemp := None; WriteFile := fun _ => None; MkdirAll := None;
     ExtractImagesFile := fun _ => None;
     ReadDir := inr [ {| Name := "input.pdf"; IsDir := false |};
                      {| Name := "page_1_Im0.png"; IsDir := false |} ];
     OpenImage := fun _ => inr img_small;
     Bitmap := Gray; Lib := lib_code39;
     NewRequest := fun _ => None;
     Do := fun _ _ => inr 200 |}.

(** ** The webhook *)
Module Webhook.

(** [http.Header] as the pairs set so far, the latest first. *)
Definition Header : Type := list (string * string).

(** [Header.Set(key, value)]: the value replaces any value of the key.
    The keys the program sets are in canonical form already. *)
Definition header_set (key value : string) (h : Header) : Header :=
  (key, value) :: List.filter (fun kv => negb (String.eqb (fst kv) key)) h.


(** The [http.Client] built by [makeWebhookRequest]: its TLS setting. *)
Record Client := { InsecureSkipVerify : bool }.

(** An [http.Request]; [Payload] is the value marshalled into the body. *)
Record Request := {
  Method : string;
  URL : string;
  Headers : Header;
  Payload : BarcodeData
}.

(** An [http.Response]: the status code and what [io.ReadAll] gives for
    the body. *)
Record HttpResponse := { Status : Z; ReadAll : error + string }.

(** The HTTP library: [http.NewRequest(method, url, payload)] and
    [client.Do(req)]. *)
Record Http := {
  newRequest : string -> string -> option error;
  clientDo : Client -> Request -> error + HttpResponse
}.

(** [getWebhookURL] *)
Definition getWebhookURL (w : World) : string := Getenv w "WEBHOOK_URL"%string.

(** [getWebhookToken] *)
Definition getWebhookToken (w : World) : error + string :=
  let token := Getenv w "WEBHOOK_TOKEN"%string in
  if nonempty token then inr token
  else inl "WEBHOOK_TOKEN environment variable not set"%string.

Definition newline : string := String (ascii_of_nat 10) EmptyString.

(** [makeWebhookRequest]: the result and the requests handed to
    [client.Do]. *)
Definition makeWebhookRequest (w : World) (h : Http) (method url : string)
           (payload : BarcodeData) : (error + HttpResponse) * list (Client * Request) :=
  let client :=
    {| InsecureSkipVerify := String.eqb (Getenv w "SKIP_TLS_VERIFY"%string) "true" |} in
  match newRequest h method url with
  | Some err => (inl ("error creating request: " ++ err)%string, [])
  | None =>
      match getWebhookToken w with
      | inl err => (inl ("webhook token error: " ++ err)%string, [])
      | inr token =>
          let req :=
            {| Method := method; URL := url;
               Headers :=
                 header_set "User-Agent" "Go-http-client/2.0"
                   (header_set "Accept" "*/*"
                      (header_set "Content-Type" "application/json"
                         (header_set "Authorization" token [])));
               Payload := payload |} in
          match clientDo h client req with
          | inl err =>
              (inl ("error making request: " ++ err ++ newline ++
                    "Try setting SKIP_TLS_VERIFY=true if having TLS issues")%string,
               [(client, req)])
          | inr res => (inr res, [(client, req)])
          end
      end
  end.

(** [%d] of [fmt] for an integer. *)
Definition show_Z (z : Z) : string := NilZero.string_of_int (Z.to_int z).

(** [callRubyEndpoint] of the handler version that notifies a webhook
    (the second file of [src/unnamed/part_001]). *)
Definition callRubyEndpoint (w : World) (h : Http) (data : BarcodeData)
  : option error * list (Client * Request) :=
  let url := getWebhookURL w in
  if negb (nonempty url) then
    (Some "WEBHOOK_URL environment variable not set"%string, [])
  else
    match makeWebhookRequest w h "POST" url data with
    | (inl err, sent) => (Some ("error making webhook request: " ++ err)%string, sent)
    | (inr res, sent) =>
        match ReadAll res with
        | inl err => (Some ("error reading response body: " ++ err)%string, sent)
        | inr body =>
            if negb (Status res =? 200) then
              (Some ("webhook returned non-200 status: " ++ show_Z (Status res) ++
                     ", body: " ++ body)%string, sent)
            else (None, sent)
        end
    end.


End Webhook.



(** An HTTP library whose server answers 200. *)
Definition http_200 : Webhook.Http :=
  {| Webhook.newRequest := fun _ _ => None;
     Webhook.clientDo := fun _ _ =>
       inr {| Webhook.Status := 200; Webhook.ReadAll := inr "ok"%string |} |}.

(** * Properties *)

(** ** Numbers *)

Section NumFacts.

Lemma uint8_range z : 0 <= uint8 z < 256.
Proof. unfold uint8. apply Z.mod_pos_bound. lia. Qed.

Lemma uint8_small z : 0 <= z < 256 -> uint8 z = z.
Proof. intros H. unfold uint8. now apply Z.mod_small. Qed.

Lemma sub8_exact a b : 0 <= b <= a -> a < 256 -> sub8 a b = a - b.
Proof. intros H1 H2. unfold sub8. apply uint8_small. lia. Qed.

End NumFacts.

(** ** Loops and the pixel buffer *)

Section ImgFacts.

Lemma foldl_bind {S A B : Type} (f : S -> B -> S) (g : A -> list B) (l : list A) (s : S) :
  foldl f s (l ≫= g) = foldl (fun s a => foldl f s (g a)) s l.
Proof.
  revert s. induction l as [|a l IH]; intros s; [reflexivity|].
  cbn. rewrite foldl_app. apply IH.
Qed.

Lemma foldl_ext_in {S A : Type} (f g : S -> A -> S) (l : list A) (s : S) :
  (forall s a, f s a = g s a) -> foldl f s l = foldl g s l.
Proof. intros H. revert s. induction l as [|a l IH]; intros s; cbn; [done|]. rewrite H. apply IH. Qed.

(** The nested loops visit the pixels of [points] in order. *)
Lemma scan_points {S : Type} (r : Rectangle) (body : Z -> Z -> S -> S) (s : S) :
  scan r body s = foldl (fun s p => body p.1 p.2 s) s (points r).
Proof.
  unfold scan, loop, points. rewrite foldl_bind.
  apply foldl_ext_in. intros s' y. rewrite foldl_bind.
  apply foldl_ext_in. intros s'' x. reflexivity.
Qed.

Lemma elem_of_points r x y : (x, y) ∈ points r <-> Point_In x y r = true.
Proof.
  unfold points, Point_In. rewrite list_elem_of_bind. split.
  - intros (y' & Hx & Hy). apply list_elem_of_bind in Hx as (x' & Hp & Hx).
    apply list_elem_of_singleton in Hp. inversion Hp; subst.
    apply elem_of_seqZ in Hx, Hy. lia.
  - intros H. exists y. split.
    + apply list_elem_of_bind. exists x. split; [apply list_elem_of_singleton; reflexivity|].
      apply elem_of_seqZ. lia.
    + apply elem_of_seqZ. lia.
Qed.

Lemma NewGray_shaped r : shaped r (NewGray r).
Proof. unfold shaped, NewGray; cbn. rewrite length_replicate. auto. Qed.

Lemma GraySet_shaped r g x y v : shaped r g -> shaped r (GraySet g x y v).
Proof.
  intros (H1 & H2 & H3). unfold GraySet. destruct (Point_In x y (Rect g)); [|done].
  unfold shaped; cbn. rewrite length_insert. auto.
Qed.

Lemma offset_bound r g x y :
  shaped r g -> Point_In x y r = true ->
  (Z.to_nat (PixOffset g x y) < length (Pix g))%nat.
Proof.
  intros (H1 & H2 & H3) Hin. unfold PixOffset. rewrite H1, H2, H3.
  unfold Point_In in Hin. unfold Dx, Dy. apply Z2Nat.inj_lt; nia.
Qed.

Lemma offset_inj r g x y x' y' :
  shaped r g -> Point_In x y r = true -> Point_In x' y' r = true ->
  Z.to_nat (PixOffset g x y) = Z.to_nat (PixOffset g x' y') -> x = x' /\ y = y'.
Proof.
  intros (H1 & H2 & H3) Hin Hin'. unfold PixOffset. rewrite H1, H2.
  unfold Point_In in Hin, Hin'. unfold Dx. intros Heq.
  apply Z2Nat.inj in Heq; [|nia|nia].
  assert (y = y') by nia. subst. split; [lia|done].
Qed.

Lemma GrayAt_GraySet r g x y v x' y' :
  shaped r g -> Point_In x y r = true ->
  GrayAt (GraySet g x y v) x' y' =
    if decide ((x', y') = (x, y)) then v else GrayAt g x' y'.
Proof.
  intros Hs Hin. pose proof Hs as (H1 & H2 & H3). subst r.
  unfold GraySet. rewrite Hin. unfold GrayAt; cbn [Rect Pix].
  change (PixOffset {| Pix := <[Z.to_nat (PixOffset g x y):=v]> (Pix g);
                       Stride := Stride g; Rect := Rect g |} x' y')
    with (PixOffset g x' y').
  destruct (decide ((x', y') = (x, y))) as [Heq|Hne].
  - inversion Heq; subst x' y'. rewrite Hin.
    rewrite list_lookup_insert_eq; [done|]. eapply offset_bound; eauto.
  - destruct (Point_In x' y' (Rect g)) eqn:Hin'; [|done].
    rewrite list_lookup_insert_ne; [done|].
    intros Heq. destruct (offset_inj _ g x y x' y' Hs Hin Hin' Heq). congruence.
Qed.

Lemma paint_shaped r f g ps : shaped r g -> shaped r (paint f g ps).
Proof.
  revert g. induction ps as [|p ps IH]; intros g Hs; [done|].
  cbn. apply IH. now apply GraySet_shaped.
Qed.

Lemma paint_snoc f g ps p :
  paint f g (ps ++ [p]) = GraySet (paint f g ps) p.1 p.2 (f p.1 p.2).
Proof. unfold paint. now rewrite foldl_app. Qed.

(** After painting, a painted pixel holds its value and any other pixel
    is unchanged. *)
Lemma GrayAt_paint r f g ps x y :
  shaped r g -> (forall p, p ∈ ps -> Point_In p.1 p.2 r = true) ->
  GrayAt (paint f g ps) x y = if decide ((x, y) ∈ ps) then f x y else GrayAt g x y.
Proof.
  intros Hs. induction ps as [|p ps IH] using rev_ind; intros Hin.
  - cbn. destruct (decide ((x, y) ∈ [])) as [H|H]; [|done]. inversion H.
  - assert (Hp : p ∈ ps ++ [p])
      by (apply elem_of_app; right; now apply list_elem_of_singleton).
    assert (Hps : forall q, q ∈ ps -> q ∈ ps ++ [p])
      by (intros q Hq; apply elem_of_app; now left).
    rewrite paint_snoc.
    rewrite (GrayAt_GraySet r); [|now apply paint_shaped|now apply Hin].
    rewrite IH by (intros q Hq; apply Hin; auto).
    destruct p as [px py]; cbn.
    destruct (decide ((x, y) = (px, py))) as [Heq|Hne].
    + rewrite Heq in *. rewrite decide_True by assumption.
      now inversion Heq.
    + destruct (decide ((x, y) ∈ ps)) as [Hl|Hl].
      * rewrite decide_True by auto. done.
      * rewrite decide_False; [done|].
        rewrite elem_of_app, list_elem_of_singleton. tauto.
Qed.

Lemma paint_Forall (P : Z -> Prop) f g ps :
  Forall P (Pix g) -> (forall x y, P (f x y)) -> Forall P (Pix (paint f g ps)).
Proof.
  intros Hg Hf. revert g Hg. induction ps as [|p ps IH]; intros g Hg; [done|].
  cbn. apply IH. unfold GraySet. destruct (Point_In _ _ _); [|done].
  cbn. now apply Forall_insert.
Qed.

End ImgFacts.

(** ** The image preprocessor *)

Section PreFacts.

Lemma luminance_range c : 0 <= luminance c < 256.
Proof. apply uint8_range. Qed.

Lemma threshold_binary n : threshold n = 0 \/ threshold n = 255.
Proof. unfold threshold. destruct (128 <? n); auto. Qed.

Lemma pass1_over_cons img s p ps :
  pass1_over img s (p :: ps) = pass1_over img (pass1_body img p.1 p.2 s) ps.
Proof. reflexivity. Qed.

Lemma pass1_body_min img x y s :
  p_min (pass1_body img x y s) = Z.min (lum img x y) (p_min s).
Proof. unfold pass1_body, lum; cbn. destruct (_ <? _) eqn:E; lia. Qed.

Lemma pass1_body_max img x y s :
  p_max (pass1_body img x y s) = Z.max (lum img x y) (p_max s).
Proof. unfold pass1_body, lum; cbn. destruct (_ <? _) eqn:E; lia. Qed.

Lemma pass1_over_gray img ps s :
  p_gray (pass1_over img s ps) = paint (lum img) (p_gray s) ps.
Proof.
  revert s. induction ps as [|p ps IH]; intros s; [done|].
  rewrite pass1_over_cons, IH. reflexivity.
Qed.

Lemma pass1_over_mono img ps s :
  p_min (pass1_over img s ps) <= p_min s /\ p_max s <= p_max (pass1_over img s ps).
Proof.
  revert s. induction ps as [|p ps IH]; intros s; [cbn; lia|].
  rewrite pass1_over_cons.
  destruct (IH (pass1_body img p.1 p.2 s)) as [H1 H2].
  rewrite pass1_body_min in H1. rewrite pass1_body_max in H2. lia.
Qed.

Lemma pass1_over_bounds img ps s p :
  p ∈ ps ->
  p_min (pass1_over img s ps) <= lum img p.1 p.2 <= p_max (pass1_over img s ps).
Proof.
  revert s. induction ps as [|q ps IH]; intros s Hp; [inversion Hp|].
  rewrite pass1_over_cons.
  apply elem_of_cons in Hp as [->|Hp]; [|now apply IH].
  destruct (pass1_over_mono img ps (pass1_body img q.1 q.2 s)) as [H1 H2].
  rewrite pass1_body_min in H1. rewrite pass1_body_max in H2. lia.
Qed.

Lemma pass1_over_range img ps s :
  0 <= p_min s < 256 -> 0 <= p_max s < 256 ->
  0 <= p_min (pass1_over img s ps) < 256 /\ 0 <= p_max (pass1_over img s ps) < 256.
Proof.
  revert s. induction ps as [|p ps IH]; intros s Hmn Hmx; [done|].
  rewrite pass1_over_cons. pose proof (luminance_range (At img p.1 p.2)) as Hl.
  fold (lum img p.1 p.2) in Hl.
  apply IH; [rewrite pass1_body_min|rewrite pass1_body_max]; lia.
Qed.

Lemma pass1_over_within img ps s lo hi :
  lo <= p_min s -> p_max s <= hi ->
  (forall p, p ∈ ps -> lo <= lum img p.1 p.2 <= hi) ->
  lo <= p_min (pass1_over img s ps) /\ p_max (pass1_over img s ps) <= hi.
Proof.
  revert s. induction ps as [|p ps IH]; intros s Hlo Hhi Hps; [done|].
  rewrite pass1_over_cons.
  assert (Hp : lo <= lum img p.1 p.2 <= hi) by (apply Hps; left).
  apply IH; [rewrite pass1_body_min; lia|rewrite pass1_body_max; lia|].
  intros q Hq. apply Hps. now right.
Qed.

Lemma firstPass_over img :
  firstPass img =
    pass1_over img {| p_min := 255; p_max := 0; p_gray := NewGray (Bounds img) |}
               (points (Bounds img)).
Proof. unfold firstPass. now rewrite scan_points. Qed.

Lemma firstPass_gray img :
  p_gray (firstPass img) = paint (lum img) (NewGray (Bounds img)) (points (Bounds img)).
Proof. rewrite firstPass_over. apply pass1_over_gray. Qed.

Lemma firstPass_shaped img : shaped (Bounds img) (p_gray (firstPass img)).
Proof. rewrite firstPass_gray. apply paint_shaped, NewGray_shaped. Qed.

Lemma points_in r p : p ∈ points r -> Point_In p.1 p.2 r = true.
Proof. destruct p as [x y]. apply elem_of_points. Qed.

(** The grayscale image holds the luminance of every source pixel. *)
Lemma firstPass_GrayAt img x y :
  Point_In x y (Bounds img) = true ->
  GrayAt (p_gray (firstPass img)) x y = lum img x y.
Proof.
  intros Hin. rewrite firstPass_gray.
  rewrite (GrayAt_paint (Bounds img)); [|apply NewGray_shaped|apply points_in].
  rewrite decide_True; [done|]. now apply elem_of_points.
Qed.

Lemma firstPass_bounds img x y :
  Point_In x y (Bounds img) = true ->
  p_min (firstPass img) <= lum img x y <= p_max (firstPass img).
Proof.
  intros Hin. rewrite firstPass_over.
  apply (pass1_over_bounds img _ _ (x, y)). now apply elem_of_points.
Qed.

Lemma firstPass_range img :
  0 <= p_min (firstPass img) < 256 /\ 0 <= p_max (firstPass img) < 256.
Proof. rewrite firstPass_over. apply pass1_over_range; cbn; lia. Qed.

(** Bounds on every luminance are bounds on the measured range. *)
Lemma firstPass_within img lo hi :
  lo <= 255 -> 0 <= hi ->
  (forall x y, Point_In x y (Bounds img) = true -> lo <= lum img x y <= hi) ->
  lo <= p_min (firstPass img) /\ p_max (firstPass img) <= hi.
Proof.
  intros Hlo Hhi Hps. rewrite firstPass_over.
  apply pass1_over_within; cbn [p_min p_max]; [assumption..|].
  intros [x y] Hp. apply Hps. now apply elem_of_points.
Qed.

(** An image with a pixel has [min <= max] after the first pass. *)
Lemma firstPass_ordered img :
  0 < Dx (Bounds img) -> 0 < Dy (Bounds img) ->
  p_min (firstPass img) <= p_max (firstPass img).
Proof.
  intros Hx Hy.
  assert (Hin : Point_In (MinX (Bounds img)) (MinY (Bounds img)) (Bounds img) = true).
  { unfold Point_In, Dx, Dy in *. lia. }
  pose proof (firstPass_bounds img _ _ Hin). lia.
Qed.

Lemma secondPass_paint bounds gray mn mx :
  secondPass bounds gray mn mx =
    paint (fun x y => threshold (normalize (GrayAt gray x y) mn mx))
          (NewGray bounds) (points bounds).
Proof. unfold secondPass. now rewrite scan_points. Qed.

Lemma secondPass_shaped bounds gray mn mx : shaped bounds (secondPass bounds gray mn mx).
Proof. rewrite secondPass_paint. apply paint_shaped, NewGray_shaped. Qed.

Lemma secondPass_GrayAt bounds gray mn mx x y :
  Point_In x y bounds = true ->
  GrayAt (secondPass bounds gray mn mx) x y = threshold (normalize (GrayAt gray x y) mn mx).
Proof.
  intros Hin. rewrite secondPass_paint.
  rewrite (GrayAt_paint bounds); [|apply NewGray_shaped|apply points_in].
  rewrite decide_True; [done|]. now apply elem_of_points.
Qed.

Lemma secondPass_binary bounds gray mn mx :
  Forall (fun v => v = 0 \/ v = 255) (Pix (secondPass bounds gray mn mx)).
Proof.
  rewrite secondPass_paint. apply paint_Forall.
  - cbn. apply Forall_replicate. auto.
  - intros x y. apply threshold_binary.
Qed.

(** The values the contrast decision can choose. *)
Lemma contrastDecision_Some bounds mn mx mn' mx' :
  contrastDecision bounds mn mx = Some (mn', mx') ->
  ((Dx bounds < 100 \/ Dy bounds < 100) /\ mn' = 0 /\ mx' = 255) \/
  (100 <= Dx bounds /\ 100 <= Dy bounds /\ 30 <= sub8 mx mn /\ mn' = mn /\ mx' = mx).
Proof.
  unfold contrastDecision.
  destruct (Dx bounds <? 100) eqn:Ex; destruct (Dy bounds <? 100) eqn:Ey; cbn;
    try (intros [= <- <-]; left; lia).
  destruct (sub8 mx mn <? 30) eqn:Ec; [discriminate|].
  intros [= <- <-]. right. lia.
Qed.

(** Every quotient the second pass can form, checked one by one: the
    truncated [float64] product is the integer quotient. *)
Lemma stretch_table :
  forallb (fun b => forallb (fun a => stretch a b =? 255 * a / b) (seqZ 0 (b + 1)))
          (seqZ 1 255) = true.
Proof. vm_cast_no_check (@eq_refl bool true). Qed.

Lemma stretch_exact a b : 0 <= a <= b -> 1 <= b <= 255 -> stretch a b = 255 * a / b.
Proof.
  intros Ha Hb.
  assert (Hbl : List.In b (seqZ 1 255)) by (apply list_elem_of_In, elem_of_seqZ; lia).
  assert (Hal : List.In a (seqZ 0 (b + 1))) by (apply list_elem_of_In, elem_of_seqZ; lia).
  pose proof (proj1 (forallb_forall _ _) stretch_table b Hbl) as Hrow.
  pose proof (proj1 (forallb_forall _ _) Hrow a Hal) as Hcell.
  apply Z.eqb_eq in Hcell. exact Hcell.
Qed.

End PreFacts.

Section PreClaims.

Lemma preprocessImage_stretch img mn mx :
  decision img = Some (mn, mx) ->
  preprocessImage img = secondPass (Bounds img) (p_gray (firstPass img)) mn mx.
Proof. unfold decision, preprocessImage. cbv zeta. now intros ->. Qed.

Lemma preprocessImage_gray img :
  decision img = None -> preprocessImage img = p_gray (firstPass img).
Proof. unfold decision, preprocessImage. cbv zeta. now intros ->. Qed.

(** In the second pass the operands of both subtractions are in order. *)
Lemma decision_operands img mn mx x y :
  decision img = Some (mn, mx) ->
  Point_In x y (Bounds img) = true ->
  let original := GrayAt (p_gray (firstPass img)) x y in
  0 <= mn <= original /\ original <= mx /\ mx < 256 /\ 1 <= sub8 mx mn.
Proof.
  intros Hd Hin original. subst original.
  rewrite firstPass_GrayAt by assumption.
  pose proof (luminance_range (At img x y)) as Hl. fold (lum img x y) in Hl.
  pose proof (firstPass_bounds img x y Hin) as Hb.
  pose proof (firstPass_range img) as [Hmn Hmx].
  apply contrastDecision_Some in Hd as [(_ & -> & ->)|(_ & _ & Hc & -> & ->)].
  - change (sub8 255 0) with 255. lia.
  - lia.
Qed.

(** The range measured on [img_mid], from the luminances of its pixels. *)
Lemma img_mid_range : p_min (firstPass img_mid) = 0 /\ p_max (firstPass img_mid) = 200.
Proof.
  assert (Hall : forall x y, Point_In x y (Bounds img_mid) = true ->
                             0 <= lum img_mid x y <= 200).
  { intros x y _. unfold lum, img_mid. cbn [At].
    destruct ((x =? 0) && (y =? 0)); [vm_compute; split; discriminate|].
    destruct ((x =? 1) && (y =? 0)); vm_compute; split; discriminate. }
  destruct (firstPass_within img_mid 0 200) as [Hlo Hhi]; [lia|lia|exact Hall|].
  pose proof (firstPass_bounds img_mid 0 0 eq_refl) as H0.
  pose proof (firstPass_bounds img_mid 1 0 eq_refl) as H1.
  change (lum img_mid 0 0) with (luminance (pixel 0 0 0)) in H0.
  change (lum img_mid 1 0) with (luminance (pixel 200 201 200)) in H1.
  replace (luminance (pixel 0 0 0)) with 0 in H0 by (vm_compute; reflexivity).
  replace (luminance (pixel 200 201 200)) with 200 in H1 by (vm_compute; reflexivity).
  lia.
Qed.

Lemma img_mid_decision : decision img_mid = Some (0, 200).
Proof.
  unfold decision. destruct img_mid_range as [-> ->]. vm_compute. reflexivity.
Qed.

(** The range measured on [img_flat]: every pixel has luminance 126. *)
Lemma img_flat_range :
  p_max (firstPass img_flat) - p_min (firstPass img_flat) < 30.
Proof.
  destruct (firstPass_within img_flat 126 126) as [Hlo Hhi]; [lia|lia| |lia].
  intros x y _. unfold lum, img_flat. cbn [At]. vm_compute. split; discriminate.
Qed.

End PreClaims.

(** C3 (as amended): in the contrast-stretching pass the value of a pixel
    before binarization is [(original - min) * 255 / (max - min)] with the
    fraction discarded (truncation, not rounding), where [original] is the
    luminance of the pixel and [min], [max] are the values chosen by the
    contrast decision; the output pixel is 255 if that value is greater
    than 128 and 0 otherwise. *)
Theorem C3_stretch_truncates (img : Image) (mn mx x y : Z) :
  decision img = Some (mn, mx) ->
  Point_In x y (Bounds img) = true ->
  let original := GrayAt (p_gray (firstPass img)) x y in
  original = luminance (At img x y) /\
  normalize original mn mx = (original - mn) * 255 / (mx - mn) /\
  GrayAt (preprocessImage img) x y = (if 128 <? normalize original mn mx then 255 else 0).
Proof.
  intros Hd Hin original.
  destruct (decision_operands img mn mx x y Hd Hin) as (H1 & H2 & H3 & H4).
  fold original in H1, H2.
  split; [apply firstPass_GrayAt; assumption|]. split.
  - unfold normalize.
    assert (Hs : sub8 mx mn = mx - mn) by (apply sub8_exact; lia).
    rewrite Hs in *. rewrite sub8_exact by lia.
    rewrite stretch_exact by lia. f_equal. lia.
  - rewrite (preprocessImage_stretch img mn mx Hd).
    rewrite secondPass_GrayAt by assumption. reflexivity.
Qed.

Lemma C3_stretch_truncates_witness :
  decision img_small = Some (0, 255) /\
  Point_In 1 0 (Bounds img_small) = true /\
  GrayAt (preprocessImage img_small) 1 0 = 255.
Proof.
  assert (Hd : decision img_small = Some (0, 255)) by (vm_compute; reflexivity).
  assert (Hin : Point_In 1 0 (Bounds img_small) = true) by reflexivity.
  split; [exact Hd|]. split; [exact Hin|].
  destruct (C3_stretch_truncates img_small 0 255 1 0 Hd Hin) as (_ & _ & ->).
  vm_compute. reflexivity.
Defined.

(** C3 fails as stated: on a 100 x 100 image with measured range 0..200 a
    pixel of luminance 101 is stretched to 128, where rounding gives 129;
    the output pixel is 0, where the rounded value would give 255. *)
Lemma C3_round_counterexample :
  decision img_mid = Some (0, 200) /\
  luminance (At img_mid 5 5) = 101 /\
  normalize 101 0 200 = 128 /\
  spec_normalized 101 0 200 = 129 /\
  normalize 101 0 200 <> spec_normalized 101 0 200 /\
  GrayAt (preprocessImage img_mid) 5 5 = 0 /\
  threshold (spec_normalized 101 0 200) = 255.
Proof.
  pose proof img_mid_decision as Hd.
  assert (Hin : Point_In 5 5 (Bounds img_mid) = true) by reflexivity.
  split; [exact Hd|].
  split; [vm_compute; reflexivity|].
  split; [vm_compute; reflexivity|].
  split; [vm_compute; reflexivity|].
  split; [vm_compute; discriminate|].
  split; [|vm_compute; reflexivity].
  rewrite (preprocessImage_stretch img_mid 0 200 Hd).
  rewrite secondPass_GrayAt by exact Hin.
  rewrite firstPass_GrayAt by exact Hin.
  vm_compute. reflexivity.
Qed.



(** C6: for every image with both dimensions at least 100 pixels whose
    measured range [max - min] is below 30, preprocessing returns the
    grayscale image of the first pass itself: it has the bounds of the
    input and every pixel holds the luminance of the source pixel. *)
Theorem C6_low_contrast_returns_gray (img : Image) :
  100 <= Dx (Bounds img) -> 100 <= Dy (Bounds img) ->
  p_max (firstPass img) - p_min (firstPass img) < 30 ->
  preprocessImage img = p_gray (firstPass img) /\
  Rect (preprocessImage img) = Bounds img /\
  length (Pix (preprocessImage img)) = Z.to_nat (Dx (Bounds img) * Dy (Bounds img)) /\
  forall x y, Point_In x y (Bounds img) = true ->
              GrayAt (preprocessImage img) x y = luminance (At img x y).
Proof.
  intros Hx Hy Hlow.
  assert (Hg : preprocessImage img = p_gray (firstPass img)).
  { apply preprocessImage_gray. unfold decision, contrastDecision.
    destruct (Dx (Bounds img) <? 100) eqn:Ex; [lia|].
    destruct (Dy (Bounds img) <? 100) eqn:Ey; [lia|]. cbn.
    pose proof (firstPass_range img) as [Hmn Hmx].
    pose proof (firstPass_ordered img) as Ho.
    rewrite sub8_exact by lia.
    destruct (_ <? 30) eqn:Ec; [reflexivity|lia]. }
  rewrite Hg. destruct (firstPass_shaped img) as (Hr & _ & Hl).
  repeat split; try assumption.
  intros x y Hin. now apply firstPass_GrayAt.
Qed.

Lemma C6_low_contrast_returns_gray_witness :
  preprocessImage img_flat = p_gray (firstPass img_flat) /\
  GrayAt (preprocessImage img_flat) 7 9 = luminance (At img_flat 7 9).
Proof.
  assert (Hx : 100 <= Dx (Bounds img_flat)) by (vm_compute; discriminate).
  assert (Hy : 100 <= Dy (Bounds img_flat)) by (vm_compute; discriminate).
  pose proof img_flat_range as Hlow.
  destruct (C6_low_contrast_returns_gray img_flat Hx Hy Hlow) as (Hg & _ & _ & Hp).
  split; [exact Hg|]. apply Hp. reflexivity.
Defined.

(** C7: whenever preprocessing takes the stretching and thresholding
    branch, every pixel of the returned image is 0 or 255 and the image
    has the bounds, stride and buffer size of the input. *)
Theorem C7_stretch_output_binary (img : Image) (mn mx : Z) :
  decision img = Some (mn, mx) ->
  Forall (fun v => v = 0 \/ v = 255) (Pix (preprocessImage img)) /\
  Rect (preprocessImage img) = Bounds img /\
  Stride (preprocessImage img) = Dx (Bounds img) /\
  length (Pix (preprocessImage img)) = Z.to_nat (Dx (Bounds img) * Dy (Bounds img)).
Proof.
  intros Hd. rewrite (preprocessImage_stretch img mn mx Hd).
  split; [apply secondPass_binary|]. apply secondPass_shaped.
Qed.

Lemma C7_stretch_output_binary_witness :
  Forall (fun v => v = 0 \/ v = 255) (Pix (preprocessImage img_small)) /\
  Rect (preprocessImage img_small) = Bounds img_small.
Proof.
  assert (Hd : decision img_small = Some (0, 255)) by (vm_compute; reflexivity).
  destruct (C7_stretch_output_binary img_small 0 255 Hd) as (H1 & H2 & _).
  split; assumption.
Defined.

(** C10: whenever the contrast-stretching pass runs, the divisor
    [max - min] is not zero (255 for a small image, at least 30
    otherwise), and at every pixel the grayscale value is at least [min],
    so that [original - min] does not wrap around. *)
Theorem C10_stretch_division_safe (img : Image) (mn mx : Z) :
  decision img = Some (mn, mx) ->
  sub8 mx mn <> 0 /\
  sub8 mx mn = mx - mn /\
  (Dx (Bounds img) < 100 \/ Dy (Bounds img) < 100 -> sub8 mx mn = 255) /\
  (100 <= Dx (Bounds img) /\ 100 <= Dy (Bounds img) -> 30 <= sub8 mx mn) /\
  forall x y, Point_In x y (Bounds img) = true ->
    let original := GrayAt (p_gray (firstPass img)) x y in
    mn <= original /\ sub8 original mn = original - mn.
Proof.
  intros Hd.
  pose proof (firstPass_range img) as [Hmn Hmx].
  assert (Hpix : forall x y, Point_In x y (Bounds img) = true ->
            let original := GrayAt (p_gray (firstPass img)) x y in
            mn <= original /\ sub8 original mn = original - mn).
  { intros x y Hin original.
    destruct (decision_operands img mn mx x y Hd Hin) as (H1 & H2 & H3 & H4).
    fold original in H1, H2. split; [lia|]. apply sub8_exact; lia. }
  pose proof Hd as Hd'.
  apply contrastDecision_Some in Hd' as [(Hs & -> & ->)|(Hx & Hy & Hc & -> & ->)].
  - change (sub8 255 0) with 255.
    split; [lia|]. split; [lia|]. split; [reflexivity|]. split; [lia|]. exact Hpix.
  - pose proof (firstPass_ordered img) as Ho.
    assert (Hs : sub8 (p_max (firstPass img)) (p_min (firstPass img))
                 = p_max (firstPass img) - p_min (firstPass img))
      by (apply sub8_exact; lia).
    split; [lia|]. split; [exact Hs|]. split; [lia|]. split; [lia|]. exact Hpix.
Qed.

Lemma C10_stretch_division_safe_witness :
  sub8 255 0 <> 0 /\
  0 <= GrayAt (p_gray (firstPass img_small)) 1 1.
Proof.
  assert (Hd : decision img_small = Some (0, 255)) by (vm_compute; reflexivity).
  destruct (C10_stretch_division_safe img_small 0 255 Hd) as (H1 & _ & _ & _ & Hp).
  split; [exact H1|]. apply (Hp 1 1). reflexivity.
Defined.

(** ** Sorting and page selection *)

Section StrFacts.

Lemma string_le_total a b : string_le a b \/ string_le b a.
Proof. apply String.leb_total. Qed.

Lemma string_le_antisym a b : string_le a b -> string_le b a -> a = b.
Proof. apply String.leb_antisym. Qed.

Lemma string_le_nil b : string_le EmptyString b.
Proof. destruct b; reflexivity. Qed.

(** The order compares the first bytes, then the rest. *)
Lemma string_le_cons x a y b :
  string_le (String x a) (String y b) <->
  (N_of_ascii x < N_of_ascii y)%N \/ (x = y /\ string_le a b).
Proof.
  unfold string_le, String.leb. cbn [String.compare].
  unfold Ascii.compare.
  destruct (N.compare_spec (N_of_ascii x) (N_of_ascii y)) as [E|E|E].
  - assert (x = y).
    { rewrite <- (ascii_N_embedding x), <- (ascii_N_embedding y). now f_equal. }
    subst. split; [right; tauto|]. intros [H|[_ H]]; [lia|exact H].
  - split; [now left|reflexivity].
  - split; [discriminate|]. intros [H|[-> _]]; lia.
Qed.

Lemma string_le_trans a b c : string_le a b -> string_le b c -> string_le a c.
Proof.
  revert b c. induction a as [|x a IH]; intros b c Hab Hbc; [apply string_le_nil|].
  destruct b as [|y b]; [discriminate|]. destruct c as [|z c]; [discriminate|].
  apply string_le_cons in Hab, Hbc. apply string_le_cons.
  destruct Hab as [Hab|[-> Hab]], Hbc as [Hbc|[-> Hbc]]; eauto.
  left. lia.
Qed.

Lemma insert_sorted_perm x l : Permutation (insert_sorted x l) (x :: l).
Proof.
  induction l as [|y l IH]; cbn; [reflexivity|].
  destruct (String.leb x y); [reflexivity|].
  rewrite IH. apply perm_swap.
Qed.

Lemma insert_sorted_sorted x l :
  Sorted string_le l -> Sorted string_le (insert_sorted x l).
Proof.
  induction l as [|y l IH]; intros Hs; cbn; [repeat constructor|].
  destruct (String.leb x y) eqn:E.
  - constructor; [assumption|]. constructor. exact E.
  - apply Sorted_inv in Hs as [Hs Hhd].
    assert (Hyx : string_le y x).
    { destruct (string_le_total x y) as [H|H]; [unfold string_le in H; congruence|exact H]. }
    constructor; [now apply IH|].
    destruct l as [|z l]; cbn; [now constructor|].
    destruct (String.leb x z); constructor; [exact Hyx|].
    now apply HdRel_inv in Hhd.
Qed.

Lemma Strings_perm l : Permutation (Strings l) l.
Proof.
  induction l as [|x l IH]; cbn; [reflexivity|].
  rewrite insert_sorted_perm. now constructor.
Qed.

Lemma Strings_sorted l : Sorted string_le (Strings l).
Proof. induction l as [|x l IH]; cbn; [constructor|]. now apply insert_sorted_sorted. Qed.

Lemma Strings_strongly_sorted l : StronglySorted string_le (Strings l).
Proof.
  apply Sorted_StronglySorted; [|apply Strings_sorted].
  intros a b c. apply string_le_trans.
Qed.

(** A list has one sorted rearrangement only: whatever algorithm
    [sort.Strings] runs, it returns [Strings l]. *)
Lemma sorted_unique l1 l2 :
  StronglySorted string_le l1 -> StronglySorted string_le l2 ->
  Permutation l1 l2 -> l1 = l2.
Proof.
  revert l2. induction l1 as [|x l1 IH]; intros l2 Hs1 Hs2 Hp.
  - now apply Permutation_nil in Hp.
  - destruct l2 as [|y l2]; [now apply Permutation_sym, Permutation_nil in Hp|].
    apply StronglySorted_inv in Hs1 as [Hs1 Hx], Hs2 as [Hs2 Hy].
    assert (Hxy : x = y).
    { assert (Hin1 : List.In x (y :: l2)) by (apply (Permutation_in _ Hp); now left).
      assert (Hin2 : List.In y (x :: l1))
        by (apply (Permutation_in _ (Permutation_sym Hp)); now left).
      destruct Hin1 as [->|Hin1]; [reflexivity|]. destruct Hin2 as [->|Hin2]; [reflexivity|].
      rewrite List.Forall_forall in Hx, Hy.
      apply string_le_antisym; [now apply Hx|now apply Hy]. }
    subst y. f_equal. apply IH; [assumption..|]. now apply Permutation_cons_inv in Hp.
Qed.

Lemma Strings_unique l l' :
  Permutation l' l -> StronglySorted string_le l' -> l' = Strings l.
Proof.
  intros Hp Hs. apply sorted_unique; [assumption|apply Strings_strongly_sorted|].
  rewrite Hp. symmetry. apply Strings_perm.
Qed.

End StrFacts.

Section SelFacts.

(** The loop of the selection appends the names kept, in listing order. *)
Lemma select_loop pageLimit files acc :
  foldl (fun sortedFiles file =>
           if keep pageLimit file then sortedFiles ++ [Name file] else sortedFiles)
        acc files
  = acc ++ map Name (List.filter (keep pageLimit) files).
Proof.
  revert acc. induction files as [|f files IH]; intros acc; cbn.
  - now rewrite app_nil_r.
  - rewrite IH. destruct (keep pageLimit f); cbn; [|reflexivity].
    now rewrite <- app_assoc.
Qed.

Lemma selectFiles_filter files pageLimit :
  selectFiles files pageLimit = Strings (map Name (List.filter (keep pageLimit) files)).
Proof. unfold selectFiles. now rewrite select_loop. Qed.

(** What [keep] tests, in words. *)
Lemma keep_spec pageLimit file :
  keep pageLimit file = true <->
  IsDir file = false /\
  Ext (Name file) <> ".pdf"%string /\
  exists token pageNum,
    nth_error (Split (Name file) "_"%char) 1 = Some token /\
    Atoi token = Some pageNum /\ pageNum <= pageLimit.
Proof.
  unfold keep. destruct (IsDir file); cbn.
  { split; [discriminate|]. intros [H _]. discriminate. }
  destruct (String.eqb_spec (Ext (Name file)) ".pdf"%string) as [E|E]; cbn.
  { split; [discriminate|]. intros (_ & H & _). contradiction. }
  destruct (Split (Name file) "_"%char) as [|part0 [|part1 parts]]; cbn.
  - split; [discriminate|]. intros (_ & _ & t & n & H & _). discriminate.
  - split; [discriminate|]. intros (_ & _ & t & n & H & _). discriminate.
  - destruct (Atoi part1) as [pageNum|] eqn:Ea.
    + split.
      * intros H. repeat split; [assumption|]. exists part1, pageNum.
        repeat split; [assumption|]. lia.
      * intros (_ & _ & t & n & [= <-] & Hn & Hle). rewrite Ea in Hn.
        injection Hn as <-. lia.
    + split; [discriminate|]. intros (_ & _ & t & n & [= <-] & Hn & _). congruence.
Qed.

End SelFacts.

(** C8: for every directory listing and every page limit, the page
    selector returns, sorted in byte-wise lexicographic order, exactly the
    names of the entries that are not directories, whose extension is not
    [.pdf], whose second underscore-delimited token parses as an integer,
    and whose page number is at most the page limit; on the listing
    page_1_a.png, page_2_a.png, page_10_a.png, input.pdf with page limit 2
    it returns page_1_a.png, page_2_a.png. *)
Theorem C8_page_selector :
  (forall (files : list DirEntry) (pageLimit : Z),
     let selected := selectFiles files pageLimit in
     StronglySorted string_le selected /\
     Permutation selected (map Name (List.filter (keep pageLimit) files)) /\
     forall name : string,
       List.In name selected <->
       exists file, List.In file files /\ Name file = name /\
         IsDir file = false /\
         Ext name <> ".pdf"%string /\
         exists token pageNum,
           nth_error (Split name "_"%char) 1 = Some token /\
           Atoi token = Some pageNum /\ pageNum <= pageLimit) /\
  selectFiles listing_example 2 = ["page_1_a.png"%string; "page_2_a.png"%string].
Proof.
  split; [|vm_compute; reflexivity].
  intros files pageLimit selected. subst selected.
  rewrite selectFiles_filter.
  split; [apply Strings_strongly_sorted|].
  split; [apply Strings_perm|].
  intros name. split.
  - intros Hin. apply (Permutation_in _ (Strings_perm _)) in Hin.
    apply in_map_iff in Hin as (file & <- & Hf).
    apply filter_In in Hf as [Hf Hk]. apply keep_spec in Hk.
    exists file. tauto.
  - intros (file & Hf & <- & Hk).
    apply (Permutation_in _ (Permutation_sym (Strings_perm _))).
    apply in_map. apply filter_In. split; [assumption|].
    apply keep_spec. tauto.
Qed.

(** C1 (the code departs from the claim): with the configured value "0"
    or "-3" the first reading of the page limit falls back to 1, but the
    limit is then assigned again from [strconv.Atoi] alone, so that the
    page limit in force at page selection is 0, respectively -3, and the
    image of page 1 is not selected; a value that fails to parse gives 1. *)
Theorem C1_page_limit_not_positive :
  pageLimit_initial "0" = 1 /\ pageLimit_used "0" = 0 /\
  pageLimit_initial "-3" = 1 /\ pageLimit_used "-3" = -3 /\
  selectFiles [ {| Name := "page_1_a.png"; IsDir := false |} ] (pageLimit_used "0") = [] /\
  selectFiles [ {| Name := "page_1_a.png"; IsDir := false |} ] 1 = ["page_1_a.png"%string] /\
  (forall limitStr, Atoi limitStr = None -> pageLimit_used limitStr = 1) /\
  (forall limitStr n, Atoi limitStr = Some n -> pageLimit_used limitStr = n).
Proof.
  do 6 (split; [vm_compute; reflexivity|]).
  split.
  - intros limitStr Hn. unfold pageLimit_used, pageLimit_final.
    destruct (nonempty limitStr); [now rewrite Hn|reflexivity].
  - intros limitStr n Hn. unfold pageLimit_used, pageLimit_final.
    destruct limitStr as [|c s]; [discriminate|]. cbn [nonempty String.eqb negb].
    now rewrite Hn.
Qed.

(** ** The decoder cascade *)

Section DecFacts.
Context {Bitmap : Type} (lib : Library Bitmap) (bmp : Bitmap).

(** The loop either stops at the first reader that succeeds, having
    called the readers before it and no reader after it, or calls every
    reader. *)
Lemma tryReaders_spec (rs : list (string * Reader)) (lastErr : option error) :
  (exists before r after result,
      map snd rs = before ++ r :: after /\
      Forall (fails lib bmp) before /\
      Decode lib r bmp = inr result /\
      tryReaders lib bmp rs lastErr = (before ++ [r], inr (GetText result)))
  \/
  (Forall (fails lib bmp) (map snd rs) /\
   tryReaders lib bmp rs lastErr = (map snd rs, inl (final_error lib bmp (map snd rs) lastErr))).
Proof.
  revert lastErr. induction rs as [|[name r] rs IH]; intros lastErr.
  - right. split; [constructor|reflexivity].
  - cbn [tryReaders map snd]. destruct (Decode lib r bmp) as [err|result] eqn:E.
    + destruct (IH (Some err)) as
        [(before & r' & after & result & Hrs & Hf & Hd & Ht)|(Hf & Ht)].
      * left. exists (r :: before), r', after, result.
        rewrite Hrs, Ht. repeat split; try assumption.
        constructor; [now exists err|assumption].
      * right. rewrite Ht. split; [constructor; [now exists err|assumption]|].
        cbn [final_error foldl]. now rewrite E.
    + left. exists [], r, (map snd rs), result.
      repeat split; [constructor|assumption].
Qed.

End DecFacts.

(** C4: the decoder cascade works through the readers in the fixed order
    UPC/EAN, Code128, Code39, Code93, ITF, CodaBar. Either some reader is
    the first to succeed: then the readers called are exactly those
    before it, all of which failed, and that reader itself, no reader
    after it is called, and its text is returned. Or every reader fails:
    then all six were called, in order, and an error is returned. *)
Theorem C4_cascade_first_success {Bitmap : Type} (lib : Library Bitmap) (img : Image)
        (bmp : Bitmap) :
  NewBinaryBitmapFromImage lib (preprocessImage img) = inr bmp ->
  let order := [UPCEAN; Code128; Code39; Code93; ITF; CodaBar] in
  map snd readers = order /\
  ((exists before r after result,
       order = before ++ r :: after /\
       Forall (fails lib bmp) before /\
       Decode lib r bmp = inr result /\
       extractBarcodeFromImage lib img = (before ++ [r], inr (GetText result)))
   \/
   (Forall (fails lib bmp) order /\
    exists err, extractBarcodeFromImage lib img = (order, inl err))).
Proof.
  intros Hbmp order. split; [reflexivity|].
  unfold extractBarcodeFromImage. cbv zeta. rewrite Hbmp.
  destruct (tryReaders_spec lib bmp readers None) as
    [(before & r & after & result & Hrs & Hf & Hd & Ht)|(Hf & Ht)].
  - left. exists before, r, after, result. rewrite Ht. auto.
  - right. split; [exact Hf|]. rewrite Ht. eexists. reflexivity.
Qed.

Lemma C4_cascade_first_success_witness :
  exists before r after result,
    [UPCEAN; Code128; Code39; Code93; ITF; CodaBar] = before ++ r :: after /\
    Forall (fails lib_code39 (preprocessImage img_small)) before /\
    Decode lib_code39 r (preprocessImage img_small) = inr result /\
    extractBarcodeFromImage lib_code39 img_small = (before ++ [r], inr (GetText result)).
Proof.
  destruct (C4_cascade_first_success lib_code39 img_small (preprocessImage img_small) eq_refl)
    as [_ [H|[H _]]].
  - exact H.
  - exfalso. apply Forall_cons_1 in H as [_ H]. apply Forall_cons_1 in H as [_ H].
    apply Forall_cons_1 in H as [[err H] _]. discriminate H.
Defined.

(** ** The request handler *)

Section HandlerFacts.

Lemma bind_run {A B : Type} (m : M A) (k : A -> M B) (t : list Event) :
  (m ≫= k) t = match m t with
                | (inl o, t') => (inl o, t')
                | (inr a, t') => k a t'
                end.
Proof. reflexivity. Qed.

(** The document begins with the magic header exactly when the test of
    the handler lets it through. *)
Lemma magic_header pdfBytes :
  String.prefix "%PDF" pdfBytes = true <->
  (String.length pdfBytes <? 4)%nat || negb (String.eqb (slice_to pdfBytes 4) "%PDF") = false.
Proof.
  assert (Hshort : forall s : string, (String.length s < 4)%nat ->
            String.prefix "%PDF" s = false).
  { intros [|c1 [|c2 [|c3 [|c4 rest]]]] Hl; cbn [String.prefix String.length] in *;
      repeat (destruct (Ascii.ascii_dec _ _)); try reflexivity; lia. }
  destruct (String.length pdfBytes <? 4)%nat eqn:El.
  { apply Nat.ltb_lt in El. rewrite (Hshort _ El). cbn. split; discriminate. }
  apply Nat.ltb_ge in El.
  destruct pdfBytes as [|c1 [|c2 [|c3 [|c4 rest]]]]; cbn [String.length] in El; try lia.
  unfold slice_to. cbn [orb substring].
  replace (substring 0 0 rest) with EmptyString by (destruct rest; reflexivity).
  cbn [String.prefix String.eqb].
  destruct (Ascii.ascii_dec "%" c1) as [<-|N1].
  2:{ rewrite (proj2 (Ascii.eqb_neq c1 "%")) by congruence. cbn. split; discriminate. }
  destruct (Ascii.ascii_dec "P" c2) as [<-|N2].
  2:{ rewrite (proj2 (Ascii.eqb_neq c2 "P")) by congruence. cbn. split; discriminate. }
  destruct (Ascii.ascii_dec "D" c3) as [<-|N3].
  2:{ rewrite (proj2 (Ascii.eqb_neq c3 "D")) by congruence. cbn. split; discriminate. }
  destruct (Ascii.ascii_dec "F" c4) as [<-|N4].
  2:{ rewrite (proj2 (Ascii.eqb_neq c4 "F")) by congruence. cbn. split; discriminate. }
  destruct rest; cbn; split; reflexivity.
Qed.

Lemma validate_empty t :
  validate EmptyString t =
    (inl (Returned {| StatusCode := 400; Body := Text "Empty PDF file" |}
                   (Some "empty PDF file"%string)), t).
Proof. reflexivity. Qed.

Lemma validate_no_header pdfBytes t :
  pdfBytes <> EmptyString -> String.prefix "%PDF" pdfBytes = false ->
  validate pdfBytes t =
    (inl (Returned {| StatusCode := 400; Body := Text "Invalid PDF format" |}
                   (Some "invalid PDF format"%string)), t).
Proof.
  intros Hne Hp. unfold validate.
  destruct pdfBytes as [|c s]; [contradiction|].
  change (String.length (String c s) =? 0)%nat with false. cbv iota.
  destruct ((String.length (String c s) <? 4)%nat
            || negb (String.eqb (slice_to (String c s) 4) "%PDF")) eqn:E; [reflexivity|].
  apply magic_header in E. congruence.
Qed.

(** ** What is posted *)

Lemma per_page_app t es :
  per_page t -> (forall url data, ~ List.In (EvPost url data) es) -> per_page (t ++ es).
Proof.
  intros Ht Hes url data Hin. apply in_app_or in Hin as [Hin|Hin]; [eauto|].
  now apply Hes in Hin.
Qed.

Lemma fetchDocument_trace w s3Event t : snd (fetchDocument w s3Event t) = t.
Proof.
  unfold fetchDocument. destruct (nonempty _).
  - destruct (ReadFile w _); reflexivity.
  - destruct s3Event as [|record records]; [reflexivity|].
    destruct (getS3Client w) as [err|[|]]; try reflexivity.
    destruct (GetObject w _ _) as [err|[err|pdfBytes]]; reflexivity.
Qed.

Lemma validate_trace pdfBytes t : snd (validate pdfBytes t) = t.
Proof.
  unfold validate. destruct (String.length pdfBytes =? 0)%nat; [reflexivity|].
  destruct (_ || _); reflexivity.
Qed.

Lemma check_trace r code text t : snd (check r code text t) = t.
Proof. destruct r; reflexivity. Qed.

Lemma callRubyEndpoint_per_page w key barcode t :
  per_page t ->
  per_page (snd (callRubyEndpoint w {| S3Key := key; BarcodeArray := [barcode] |} t)).
Proof.
  intros Ht. unfold callRubyEndpoint. destruct (negb _); [exact Ht|].
  destruct (NewRequest w _); [exact Ht|].
  rewrite bind_run. cbn [emit].
  assert (Hp : per_page (t ++ [EvPost (Getenv w "API_ENDPOINT")
                                      {| S3Key := key; BarcodeArray := [barcode] |}])).
  { intros url data Hin. apply in_app_or in Hin as [Hin|[[= <- <-]|[]]]; [eauto|].
    now exists barcode. }
  destruct (Do w _ _) as [err|status]; [exact Hp|].
  destruct (status =? 200); exact Hp.
Qed.

Lemma callRubyEndpoint_goes_on w data t : exists r, fst (callRubyEndpoint w data t) = inr r.
Proof.
  unfold callRubyEndpoint. destruct (negb _); [eexists; reflexivity|].
  destruct (NewRequest w _); [eexists; reflexivity|].
  rewrite bind_run. cbn [emit].
  destruct (Do w _ _) as [err|status]; [eexists; reflexivity|].
  destruct (status =? 200); eexists; reflexivity.
Qed.

Lemma processFiles_per_page w key files found t :
  per_page t -> per_page (snd (processFiles w key files found t)).
Proof.
  revert found t. induction files as [|fileName rest IH]; intros found t Ht; [exact Ht|].
  cbn [processFiles]. rewrite bind_run. cbn [emit].
  assert (H1 : per_page (t ++ [EvOpenImage fileName])).
  { apply per_page_app; [exact Ht|]. intros url data [H|[]]. discriminate. }
  destruct (OpenImage w fileName) as [err|img]; [now apply IH|].
  destruct (extractBarcodeFromImage (Lib w) img) as [attempted res].
  rewrite bind_run. cbn [emitAll].
  assert (H2 : per_page ((t ++ [EvOpenImage fileName]) ++ map EvDecode attempted)).
  { apply per_page_app; [exact H1|]. intros url data H.
    apply in_map_iff in H as (r & H & _). discriminate. }
  destruct res as [err|barcode]; [now apply IH|].
  destruct (nonempty barcode); [|now apply IH].
  rewrite bind_run.
  pose proof (callRubyEndpoint_per_page w key barcode _ H2) as H3.
  destruct (callRubyEndpoint_goes_on w {| S3Key := key; BarcodeArray := [barcode] |}
              ((t ++ [EvOpenImage fileName]) ++ map EvDecode attempted)) as [r Hr].
  destruct (callRubyEndpoint w _ _) as [[o|r'] t'] eqn:E; cbn in Hr, H3; [discriminate|].
  now apply IH.
Qed.

(** Whatever the world, the handler posts one barcode at a time. *)
Lemma HandleRequest_per_page w s3Event : per_page (snd (HandleRequest w s3Event)).
Proof.
  assert (H0 : per_page []) by (intros url data []).
  assert (H : per_page (snd (handler w s3Event []))).
  { unfold handler. cbv zeta. rewrite bind_run.
    pose proof (fetchDocument_trace w s3Event []) as Hf.
    destruct (fetchDocument w s3Event []) as [[o|[[pdfBytes bucket] key]] t];
      cbn in Hf; subst t; [exact H0|].
    rewrite bind_run. pose proof (validate_trace pdfBytes []) as Hv.
    destruct (validate pdfBytes []) as [[o|[]] t]; cbn in Hv; subst t; [exact H0|].
    rewrite bind_run. pose proof (check_trace (MkdirTemp w) 500 "Error creating temp directory" []) as Hc.
    destruct (check (MkdirTemp w) _ _ []) as [[o|[]] t]; cbn in Hc; subst t; [exact H0|].
    rewrite bind_run. pose proof (check_trace (WriteFile w pdfBytes) 500 "Error writing temporary PDF" []) as Hc.
    destruct (check (WriteFile w pdfBytes) _ _ []) as [[o|[]] t]; cbn in Hc; subst t; [exact H0|].
    rewrite bind_run. pose proof (check_trace (MkdirAll w) 500 "Error creating pages directory" []) as Hc.
    destruct (check (MkdirAll w) _ _ []) as [[o|[]] t]; cbn in Hc; subst t; [exact H0|].
    rewrite bind_run. cbn [emit app].
    assert (H1 : per_page [EvExtractImages]) by (intros url data [H|[]]; discriminate).
    rewrite bind_run.
    pose proof (check_trace (ExtractImagesFile w pdfBytes) 500 "Error extracting images from PDF" [EvExtractImages]) as Hc.
    destruct (check (ExtractImagesFile w pdfBytes) _ _ _) as [[o|[]] t]; cbn in Hc; subst t; [exact H1|].
    destruct (ReadDir w) as [err|files]; [exact H1|].
    rewrite bind_run.
    pose proof (processFiles_per_page w key (selectFiles files
                  (pageLimit_final (Getenv w "PDF_PAGE_LIMIT")
                     (pageLimit_initial (Getenv w "PDF_PAGE_LIMIT")))) [] _ H1) as Hp.
    destruct (processFiles w key _ [] [EvExtractImages]) as [[o|found] t]; exact Hp. }
  unfold HandleRequest. destruct (handler w s3Event []) as [[o|o] t]; exact H.
Qed.

End HandlerFacts.

(** C2 (the code departs from the claim): on the success path the handler
    of [processor/pdf.go] sends no batch-level notification. For a
    document without images it answers 200 with an empty batch and posts
    nothing; for a document with one barcode the only request posted is
    the per-page one; and in every run each request posted carries
    exactly one barcode, so the aggregated batch is never sent as such. *)
Theorem C2_no_batch_notification :
  HandleRequest world_no_images [] =
    (Returned {| StatusCode := 200;
                 Body := Json {| Bucket := "test-bucket"; Key := "doc.pdf"; Barcodes := [] |} |}
              None,
     [EvExtractImages]) /\
  HandleRequest world_one_barcode [] =
    (Returned {| StatusCode := 200;
                 Body := Json {| Bucket := "test-bucket"; Key := "doc.pdf";
                                 Barcodes := ["ABC123"%string] |} |}
              None,
     [EvExtractImages; EvOpenImage "page_1_Im0.png";
      EvDecode UPCEAN; EvDecode Code128; EvDecode Code39;
      EvPost "http://api.test/barcodes"
             {| S3Key := "doc.pdf"; BarcodeArray := ["ABC123"%string] |}]) /\
  (forall (w : World) (s3Event : list S3EventRecord) (url : string) (data : BarcodeData),
     List.In (EvPost url data) (snd (HandleRequest w s3Event)) ->
     exists barcode, BarcodeArray data = [barcode]).
Proof.
  split; [vm_compute; reflexivity|].
  split; [vm_compute; reflexivity|].
  intros w s3Event. apply HandleRequest_per_page.
Qed.

(** C9: whenever the document bytes that were read are empty or do not
    begin with the magic header "%PDF", the handler returns status 400
    with an error naming the defect, and nothing has been extracted,
    opened, decoded or posted. *)
Theorem C9_invalid_document_400 (w : World) (s3Event : list S3EventRecord)
        (pdfBytes bucket key : string) :
  fetchDocument w s3Event [] = (inr (pdfBytes, bucket, key), []) ->
  pdfBytes = EmptyString \/ String.prefix "%PDF" pdfBytes = false ->
  exists (text : string) (err : error),
    HandleRequest w s3Event =
      (Returned {| StatusCode := 400; Body := Text text |} (Some err), []) /\
    ((pdfBytes = EmptyString /\
      text = "Empty PDF file"%string /\ err = "empty PDF file"%string) \/
     (pdfBytes <> EmptyString /\
      text = "Invalid PDF format"%string /\ err = "invalid PDF format"%string)).
Proof.
  intros Hfetch Hbad.
  assert (Hrun : forall o, validate pdfBytes [] = (inl o, []) ->
                           HandleRequest w s3Event = (o, [])).
  { intros o Hv. unfold HandleRequest, handler. cbv zeta.
    rewrite bind_run, Hfetch. rewrite bind_run, Hv. reflexivity. }
  destruct (String.string_dec pdfBytes EmptyString) as [->|Hne].
  - exists "Empty PDF file"%string, "empty PDF file"%string.
    split; [apply Hrun, validate_empty|]. left. auto.
  - destruct Hbad as [Hb|Hb]; [contradiction|].
    exists "Invalid PDF format"%string, "invalid PDF format"%string.
    split; [apply Hrun, validate_no_header; assumption|]. right. auto.
Qed.

Lemma C9_invalid_document_400_witness :
  exists (text : string) (err : error),
    HandleRequest world_not_pdf [] =
      (Returned {| StatusCode := 400; Body := Text text |} (Some err), []) /\
    (("GIF89a"%string = EmptyString /\
      text = "Empty PDF file"%string /\ err = "empty PDF file"%string) \/
     ("GIF89a"%string <> EmptyString /\
      text = "Invalid PDF format"%string /\ err = "invalid PDF format"%string)).
Proof.
  apply (C9_invalid_document_400 world_not_pdf [] "GIF89a" "test-bucket" "doc.pdf").
  - reflexivity.
  - right. reflexivity.
Defined.

(** * Further properties *)

(** ** More on the image preprocessor *)

Section PreMore.

(** The measured extremes are luminances of pixels, unless no pixel was seen. *)
Lemma pass1_over_attained img ps s :
  (p_min (pass1_over img s ps) = p_min s \/
   exists p, p ∈ ps /\ p_min (pass1_over img s ps) = lum img p.1 p.2) /\
  (p_max (pass1_over img s ps) = p_max s \/
   exists p, p ∈ ps /\ p_max (pass1_over img s ps) = lum img p.1 p.2).
Proof.
  revert s. induction ps as [|p ps IH]; intros s; [split; now left|].
  rewrite pass1_over_cons.
  destruct (IH (pass1_body img p.1 p.2 s)) as [Hmin Hmax].
  rewrite pass1_body_min in Hmin. rewrite pass1_body_max in Hmax. split.
  - destruct Hmin as [Hmin|(q & Hq & Hmin)].
    + destruct (Z.min_spec (lum img p.1 p.2) (p_min s)) as [[_ E]|[_ E]]; rewrite E in Hmin.
      * right. exists p. split; [left|exact Hmin].
      * now left.
    + right. exists q. split; [now right|exact Hmin].
  - destruct Hmax as [Hmax|(q & Hq & Hmax)].
    + destruct (Z.max_spec (lum img p.1 p.2) (p_max s)) as [[_ E]|[_ E]]; rewrite E in Hmax.
      * now left.
      * right. exists p. split; [left|exact Hmax].
    + right. exists q. split; [now right|exact Hmax].
Qed.

Lemma seqZ_empty m n : n <= 0 -> seqZ m n = [].
Proof. intros H. unfold seqZ. replace (Z.to_nat n) with 0%nat by lia. reflexivity. Qed.

Lemma points_nil r : Dx r <= 0 \/ Dy r <= 0 -> points r = [].
Proof.
  intros H. unfold points, Dx, Dy in *.
  destruct (Z_le_gt_dec (MaxY r - MinY r) 0) as [Hy|Hy].
  - now rewrite (seqZ_empty _ _ Hy).
  - rewrite (seqZ_empty (MinX r)) by lia.
    induction (seqZ (MinY r) (MaxY r - MinY r)) as [|y ys IH]; [reflexivity|].
    cbn. exact IH.
Qed.

(** The pixel written in the stretching branch, from the luminance of the
    source pixel. *)
Lemma output_stretch img mn mx x y :
  decision img = Some (mn, mx) ->
  Point_In x y (Bounds img) = true ->
  output img x y = threshold ((lum img x y - mn) * 255 / (mx - mn)).
Proof.
  intros Hd Hin. unfold output.
  destruct (decision_operands img mn mx x y Hd Hin) as (H1 & H2 & H3 & H4).
  rewrite (preprocessImage_stretch img mn mx Hd).
  rewrite secondPass_GrayAt by assumption.
  rewrite firstPass_GrayAt in * by assumption. f_equal. unfold normalize.
  assert (Hs : sub8 mx mn = mx - mn) by (apply sub8_exact; lia).
  rewrite Hs in *. rewrite sub8_exact by lia.
  rewrite stretch_exact by lia. f_equal. lia.
Qed.

(** On an image with a pixel both measured extremes are luminances of
    pixels. *)
Lemma firstPass_attained img :
  0 < Dx (Bounds img) -> 0 < Dy (Bounds img) ->
  (exists x y, Point_In x y (Bounds img) = true /\
     luminance (At img x y) = p_min (firstPass img)) /\
  (exists x y, Point_In x y (Bounds img) = true /\
     luminance (At img x y) = p_max (firstPass img)).
Proof.
  intros Hx Hy.
  set (x0 := MinX (Bounds img)). set (y0 := MinY (Bounds img)).
  assert (H0 : Point_In x0 y0 (Bounds img) = true).
  { subst x0 y0. unfold Point_In, Dx, Dy in *. lia. }
  pose proof (firstPass_bounds img x0 y0 H0) as Hb0. unfold lum in Hb0.
  pose proof (luminance_range (At img x0 y0)) as Hr.
  destruct (pass1_over_attained img (points (Bounds img))
              {| p_min := 255; p_max := 0; p_gray := NewGray (Bounds img) |}) as [Hmin Hmax].
  rewrite <- firstPass_over in Hmin, Hmax. cbn [p_min p_max] in Hmin, Hmax. split.
  - destruct Hmin as [Hmin|([x y] & Hp & Hmin)].
    + exists x0, y0. split; [exact H0|lia].
    + exists x, y. split; [now apply elem_of_points|]. symmetry. exact Hmin.
  - destruct Hmax as [Hmax|([x y] & Hp & Hmax)].
    + exists x0, y0. split; [exact H0|lia].
    + exists x, y. split; [now apply elem_of_points|]. symmetry. exact Hmax.
Qed.

Lemma threshold_mono a b : a <= b -> threshold a <= threshold b.
Proof. intros H. unfold threshold. destruct (128 <? a) eqn:Ea, (128 <? b) eqn:Eb; lia. Qed.

End PreMore.

(** X1: whatever branch preprocessing takes, the image returned has the
    bounds of the input, a stride equal to its width, and one byte per
    pixel. *)
Theorem X1_preprocess_keeps_dimensions (img : Image) :
  Rect (preprocessImage img) = Bounds img /\
  Stride (preprocessImage img) = Dx (Bounds img) /\
  length (Pix (preprocessImage img)) = Z.to_nat (Dx (Bounds img) * Dy (Bounds img)) /\
  0 <= Dx (Bounds img) /\ 0 <= Dy (Bounds img).
Proof.
  assert (Hs : shaped (Bounds img) (preprocessImage img)).
  { destruct (decision img) as [[mn mx]|] eqn:Hd.
    - rewrite (preprocessImage_stretch img mn mx Hd). apply secondPass_shaped.
    - rewrite (preprocessImage_gray img Hd). apply firstPass_shaped. }
  destruct Hs as (H1 & H2 & H3).
  pose proof (Bounds_wf img) as Hwf. unfold well_formed in Hwf. unfold Dx, Dy in *.
  repeat split; try assumption; lia.
Qed.

(** X2: on an image with at least one pixel the first pass measures the
    exact range: every luminance lies between [min] and [max], and both
    are the luminance of some pixel. *)
Theorem X2_measured_range_exact (img : Image) :
  0 < Dx (Bounds img) -> 0 < Dy (Bounds img) ->
  (forall x y, Point_In x y (Bounds img) = true ->
     p_min (firstPass img) <= luminance (At img x y) <= p_max (firstPass img)) /\
  (exists x y, Point_In x y (Bounds img) = true /\
     luminance (At img x y) = p_min (firstPass img)) /\
  (exists x y, Point_In x y (Bounds img) = true /\
     luminance (At img x y) = p_max (firstPass img)).
Proof.
  intros Hx Hy. split; [apply firstPass_bounds|].
  now apply firstPass_attained.
Qed.

Lemma X2_measured_range_exact_witness :
  exists x y, Point_In x y (Bounds img_small) = true /\
    luminance (At img_small x y) = p_min (firstPass img_small).
Proof.
  destruct (X2_measured_range_exact img_small) as (_ & H & _);
    [vm_compute; reflexivity|vm_compute; reflexivity|exact H].
Defined.

(** X3: on an image without pixels the first pass leaves [min] at 255 and
    [max] at 0, and preprocessing returns an image with an empty buffer. *)
Theorem X3_empty_image (img : Image) :
  Dx (Bounds img) = 0 \/ Dy (Bounds img) = 0 ->
  p_min (firstPass img) = 255 /\ p_max (firstPass img) = 0 /\
  Pix (preprocessImage img) = [] /\
  forall x y, GrayAt (preprocessImage img) x y = 0.
Proof.
  intros He.
  assert (Hp : points (Bounds img) = []) by (apply points_nil; lia).
  assert (Hf : firstPass img =
               {| p_min := 255; p_max := 0; p_gray := NewGray (Bounds img) |}).
  { rewrite firstPass_over, Hp. reflexivity. }
  rewrite Hf. cbn [p_min p_max]. split; [reflexivity|]. split; [reflexivity|].
  assert (Hd : decision img = Some (0, 255)).
  { unfold decision, contrastDecision.
    destruct (Dx (Bounds img) <? 100) eqn:Ex; [reflexivity|].
    destruct (Dy (Bounds img) <? 100) eqn:Ey; [reflexivity|]. lia. }
  rewrite (preprocessImage_stretch img 0 255 Hd).
  assert (Hpix : Pix (secondPass (Bounds img) (p_gray (firstPass img)) 0 255) = []).
  { rewrite secondPass_paint, Hp. cbn.
    replace (Z.to_nat (Dx (Bounds img) * Dy (Bounds img))) with 0%nat by nia. reflexivity. }
  split; [exact Hpix|].
  intros x y. unfold GrayAt. rewrite Hpix.
  destruct (Point_In _ _ _); [|reflexivity]. now rewrite lookup_nil.
Qed.

Lemma X3_empty_image_witness :
  p_min (firstPass img_empty) = 255 /\ Pix (preprocessImage img_empty) = [].
Proof.
  destruct (X3_empty_image img_empty) as (H1 & _ & H2 & _); [left; reflexivity|].
  split; assumption.
Defined.

(** X4: for an image whose width or height is below 100 pixels,
    preprocessing is a fixed threshold on the luminance: the output pixel
    is 255 when the luminance of the source pixel exceeds 128 and 0
    otherwise. *)
Theorem X4_small_image_fixed_threshold (img : Image) (x y : Z) :
  Dx (Bounds img) < 100 \/ Dy (Bounds img) < 100 ->
  Point_In x y (Bounds img) = true ->
  GrayAt (preprocessImage img) x y = (if 128 <? luminance (At img x y) then 255 else 0).
Proof.
  intros Hsmall Hin.
  assert (Hd : decision img = Some (0, 255)).
  { unfold decision, contrastDecision.
    destruct (Dx (Bounds img) <? 100) eqn:Ex; [reflexivity|].
    destruct (Dy (Bounds img) <? 100) eqn:Ey; [reflexivity|]. lia. }
  fold (output img x y). rewrite (output_stretch img 0 255 x y Hd Hin).
  unfold threshold, lum.
  replace ((luminance (At img x y) - 0) * 255 / (255 - 0)) with (luminance (At img x y)).
  - reflexivity.
  - rewrite Z.sub_0_r. change (255 - 0) with 255. now rewrite Z.div_mul.
Qed.

Lemma X4_small_image_fixed_threshold_witness :
  GrayAt (preprocessImage img_small) 0 0 = (if 128 <? luminance (At img_small 0 0) then 255 else 0).
Proof.
  apply (X4_small_image_fixed_threshold img_small 0 0).
  - left. vm_compute. reflexivity.
  - reflexivity.
Defined.

(** X5: on an image of at least 100 x 100 pixels whose measured range is
    30 or more, the pixels of least luminance come out black and those of
    greatest luminance white, so the output holds both a 0 and a 255. *)
Theorem X5_extremes_survive (img : Image) :
  100 <= Dx (Bounds img) -> 100 <= Dy (Bounds img) ->
  30 <= p_max (firstPass img) - p_min (firstPass img) ->
  (forall x y, Point_In x y (Bounds img) = true ->
     (luminance (At img x y) = p_min (firstPass img) -> GrayAt (preprocessImage img) x y = 0) /\
     (luminance (At img x y) = p_max (firstPass img) -> GrayAt (preprocessImage img) x y = 255)) /\
  (exists x y, Point_In x y (Bounds img) = true /\ GrayAt (preprocessImage img) x y = 0) /\
  (exists x y, Point_In x y (Bounds img) = true /\ GrayAt (preprocessImage img) x y = 255).
Proof.
  intros Hx Hy Hc.
  pose proof (firstPass_range img) as [Hmn Hmx].
  assert (Hd : decision img = Some (p_min (firstPass img), p_max (firstPass img))).
  { unfold decision, contrastDecision.
    destruct (Dx (Bounds img) <? 100) eqn:Ex; [lia|].
    destruct (Dy (Bounds img) <? 100) eqn:Ey; [lia|]. cbn.
    rewrite sub8_exact by lia.
    destruct (_ <? 30) eqn:E; [lia|reflexivity]. }
  assert (Hpix : forall x y, Point_In x y (Bounds img) = true ->
     (luminance (At img x y) = p_min (firstPass img) -> GrayAt (preprocessImage img) x y = 0) /\
     (luminance (At img x y) = p_max (firstPass img) -> GrayAt (preprocessImage img) x y = 255)).
  { intros x y Hin. fold (output img x y).
    rewrite (output_stretch img _ _ x y Hd Hin). unfold lum. split; intros ->.
    - rewrite Z.sub_diag. cbn. reflexivity.
    - rewrite Z.mul_comm, Z.div_mul by lia. reflexivity. }
  split; [exact Hpix|].
  destruct (firstPass_attained img) as (Hlo & Hhi); [lia|lia|].
  split.
  - destruct Hlo as (x & y & Hin & E). exists x, y. split; [exact Hin|]. now apply Hpix.
  - destruct Hhi as (x & y & Hin & E). exists x, y. split; [exact Hin|]. now apply Hpix.
Qed.

Lemma X5_extremes_survive_witness :
  (exists x y, Point_In x y (Bounds img_mid) = true /\ GrayAt (preprocessImage img_mid) x y = 0) /\
  (exists x y, Point_In x y (Bounds img_mid) = true /\ GrayAt (preprocessImage img_mid) x y = 255).
Proof.
  destruct (X5_extremes_survive img_mid) as (_ & H).
  - vm_compute. discriminate.
  - vm_compute. discriminate.
  - destruct img_mid_range as [-> ->]. lia.
  - exact H.
Defined.

(** X6: in the stretching branch the output never inverts the order of
    two pixels: a pixel at least as bright as another in the source is at
    least as bright in the output. *)
Theorem X6_stretch_monotone (img : Image) (mn mx x1 y1 x2 y2 : Z) :
  decision img = Some (mn, mx) ->
  Point_In x1 y1 (Bounds img) = true -> Point_In x2 y2 (Bounds img) = true ->
  luminance (At img x1 y1) <= luminance (At img x2 y2) ->
  GrayAt (preprocessImage img) x1 y1 <= GrayAt (preprocessImage img) x2 y2.
Proof.
  intros Hd H1 H2 Hle.
  fold (output img x1 y1). fold (output img x2 y2).
  rewrite (output_stretch img mn mx x1 y1 Hd H1), (output_stretch img mn mx x2 y2 Hd H2).
  destruct (decision_operands img mn mx x1 y1 Hd H1) as (_ & _ & _ & Hpos).
  destruct (decision_operands img mn mx x2 y2 Hd H2) as (Ha & Hb & Hc & _).
  rewrite firstPass_GrayAt in Ha, Hb by assumption.
  assert (Hs : sub8 mx mn = mx - mn) by (apply sub8_exact; lia).
  apply threshold_mono. apply Z.div_le_mono; [lia|]. unfold lum. nia.
Qed.

Lemma X6_stretch_monotone_witness :
  GrayAt (preprocessImage img_small) 0 0 <= GrayAt (preprocessImage img_small) 1 0.
Proof.
  apply (X6_stretch_monotone img_small 0 255 0 0 1 0).
  - vm_compute. reflexivity.
  - reflexivity.
  - reflexivity.
  - vm_compute. discriminate.
Defined.

(** ** More on the decoder cascade and the page selection *)

Section DecMore.
Context {Bitmap : Type} (lib : Library Bitmap).

Lemma extract_with_bitmap img bmp :
  NewBinaryBitmapFromImage lib (preprocessImage img) = inr bmp ->
  extractBarcodeFromImage lib img =
    match tryReaders lib bmp readers None with
    | (attempted, inr text) => (attempted, inr text)
    | (attempted, inl lastErr) =>
        (attempted,
         inl ("no barcode found with any reader, last error: " ++ show_error lastErr)%string)
    end.
Proof. intros H. unfold extractBarcodeFromImage. cbv zeta. now rewrite H. Qed.

Lemma extract_without_bitmap img err :
  NewBinaryBitmapFromImage lib (preprocessImage img) = inl err ->
  extractBarcodeFromImage lib img = ([], inl ("error creating binary bitmap: " ++ err)%string).
Proof. intros H. unfold extractBarcodeFromImage. cbv zeta. now rewrite H. Qed.

End DecMore.

(** X7: when the bitmap is built and every reader fails, all six readers
    have been called and the error returned wraps the error of the last
    one, CodaBar; the errors of the earlier readers are dropped. *)
Theorem X7_all_fail_last_error {Bitmap : Type} (lib : Library Bitmap) (img : Image)
        (bmp : Bitmap) :
  NewBinaryBitmapFromImage lib (preprocessImage img) = inr bmp ->
  Forall (fails lib bmp) order ->
  exists err,
    Decode lib CodaBar bmp = inl err /\
    extractBarcodeFromImage lib img =
      (order, inl ("no barcode found with any reader, last error: " ++ err)%string).
Proof.
  intros Hbmp Hall. rewrite (extract_with_bitmap lib img bmp Hbmp).
  unfold order in Hall.
  repeat match goal with
         | H : Forall _ (_ :: _) |- _ => apply Forall_cons_1 in H as [[? ?] H]
         end.
  exists x4. split; [assumption|].
  cbn [tryReaders readers].
  repeat match goal with H : Decode _ _ _ = inl _ |- _ => rewrite H; clear H end.
  reflexivity.
Qed.

Lemma X7_all_fail_last_error_witness :
  exists err,
    Decode lib_none CodaBar (preprocessImage img_small) = inl err /\
    extractBarcodeFromImage lib_none img_small =
      (order, inl ("no barcode found with any reader, last error: " ++ err)%string).
Proof.
  apply (X7_all_fail_last_error lib_none img_small (preprocessImage img_small) eq_refl).
  repeat constructor; eexists; reflexivity.
Defined.

(** X8: [extractBarcodeFromImage] returns an error exactly when the
    bitmap cannot be built or every reader fails. It calls at most six
    readers, and none when the bitmap cannot be built. *)
Theorem X8_cascade_error_iff {Bitmap : Type} (lib : Library Bitmap) (img : Image) :
  ((exists e, snd (extractBarcodeFromImage lib img) = inl e) <->
   (exists e, NewBinaryBitmapFromImage lib (preprocessImage img) = inl e) \/
   (exists bmp, NewBinaryBitmapFromImage lib (preprocessImage img) = inr bmp /\
                Forall (fails lib bmp) order)) /\
  (length (fst (extractBarcodeFromImage lib img)) <= 6)%nat /\
  ((exists e, NewBinaryBitmapFromImage lib (preprocessImage img) = inl e) ->
   fst (extractBarcodeFromImage lib img) = []).
Proof.
  destruct (NewBinaryBitmapFromImage lib (preprocessImage img)) as [err|bmp] eqn:Hb.
  - rewrite (extract_without_bitmap lib img err Hb). cbn.
    split; [|split; [lia|reflexivity]].
    split; [intros _; left; eauto|intros _; eauto].
  - rewrite (extract_with_bitmap lib img bmp Hb).
    destruct (tryReaders_spec lib bmp readers None) as
      [(before & r & after & result & Hrs & Hf & Hd & Ht)|(Hf & Ht)]; rewrite Ht; cbn [fst snd].
    + split; [|split].
      * split; [intros [e He]; discriminate|].
        intros [[e He]|(bmp' & [= <-] & Hall)]; [discriminate|].
        exfalso. change (map snd readers) with order in Hrs. rewrite Hrs in Hall.
        apply Forall_app in Hall as [_ Hall]. apply Forall_cons_1 in Hall as [[e He] _].
        congruence.
      * change (map snd readers) with order in Hrs.
        apply (f_equal (@length Reader)) in Hrs. rewrite length_app in *. cbn in *. lia.
      * intros [e He]. discriminate.
    + split; [|split].
      * split; [intros _; right; exists bmp; split; [reflexivity|exact Hf]|eauto].
      * cbn. lia.
      * intros [e He]. discriminate.
Qed.

Section SelMore.

Lemma filter_perm {A} (f : A -> bool) (l l' : list A) :
  Permutation l l' -> Permutation (List.filter f l) (List.filter f l').
Proof.
  induction 1 as [|x l l' _ IH|x y l|l l' l'' _ IH1 _ IH2]; cbn.
  - constructor.
  - destruct (f x); [now constructor|exact IH].
  - destruct (f x), (f y); try reflexivity. apply perm_swap.
  - now transitivity (List.filter f l').
Qed.

Lemma filter_sublist {A} (f g : A -> bool) (l : list A) :
  (forall x, f x = true -> g x = true) -> sublist (List.filter f l) (List.filter g l).
Proof.
  intros Hfg. induction l as [|x l IH]; cbn; [constructor|].
  destruct (f x) eqn:Ef.
  - rewrite (Hfg x Ef). now constructor.
  - destruct (g x); [now constructor|exact IH].
Qed.

Lemma keep_mono limit limit' file :
  limit <= limit' -> keep limit file = true -> keep limit' file = true.
Proof.
  intros Hle Hk. apply keep_spec in Hk as (H1 & H2 & token & pageNum & H3 & H4 & H5).
  apply keep_spec. repeat split; try assumption. exists token, pageNum.
  repeat split; try assumption. lia.
Qed.

(** A name without the separator is a single token. *)
Lemma Split_no_sep s sep :
  ~ List.In sep (bytes_of s) -> Split s sep = [s].
Proof.
  induction s as [|c s IH]; intros Hn; [reflexivity|].
  cbn [Split]. cbn in Hn.
  destruct (Ascii.eqb_spec c sep) as [->|Hne]; [tauto|].
  rewrite IH by tauto. reflexivity.
Qed.

End SelMore.

(** X9: the selection does not depend on the order in which the directory
    is listed: two listings with the same entries give the same sequence
    of files. *)
Theorem X9_selection_order_independent (files files' : list DirEntry) (pageLimit : Z) :
  Permutation files files' ->
  selectFiles files pageLimit = selectFiles files' pageLimit.
Proof.
  intros Hp. rewrite !selectFiles_filter.
  apply Strings_unique; [|apply Strings_strongly_sorted].
  rewrite Strings_perm. apply Permutation_map, filter_perm. exact Hp.
Qed.

Lemma X9_selection_order_independent_witness :
  selectFiles listing_example 2 = selectFiles (rev listing_example) 2.
Proof.
  apply (X9_selection_order_independent listing_example (rev listing_example) 2).
  apply Permutation_rev.
Defined.

(** X10: raising the page limit only adds files: whatever is selected
    under a limit is selected, as many times, under any greater limit. *)
Theorem X10_selection_grows_with_limit (files : list DirEntry) (limit limit' : Z) :
  limit <= limit' ->
  selectFiles files limit ⊆+ selectFiles files limit' /\
  (forall name, List.In name (selectFiles files limit) ->
                List.In name (selectFiles files limit')).
Proof.
  intros Hle.
  assert (Hsub : selectFiles files limit ⊆+ selectFiles files limit').
  { rewrite !selectFiles_filter, !Strings_perm.
    apply sublist_submseteq, fmap_sublist, filter_sublist.
    intros file. now apply keep_mono. }
  split; [exact Hsub|].
  intros name Hin. apply list_elem_of_In. apply list_elem_of_In in Hin.
  eapply elem_of_submseteq; eassumption.
Qed.

Lemma X10_selection_grows_with_limit_witness :
  selectFiles listing_example 2 ⊆+ selectFiles listing_example 10.
Proof.
  apply (X10_selection_grows_with_limit listing_example 2 10). lia.
Defined.

(** X11: an entry whose name holds no underscore is never selected,
    whatever the page limit. *)
Theorem X11_no_underscore_not_selected (files : list DirEntry) (pageLimit : Z)
        (name : string) :
  ~ List.In "_"%char (bytes_of name) ->
  ~ List.In name (selectFiles files pageLimit).
Proof.
  intros Hn Hin. rewrite selectFiles_filter in Hin.
  apply (Permutation_in _ (Strings_perm _)) in Hin.
  apply in_map_iff in Hin as (file & <- & Hf).
  apply filter_In in Hf as [_ Hk]. apply keep_spec in Hk as (_ & _ & token & n & Ht & _).
  rewrite (Split_no_sep _ _ Hn) in Ht. discriminate.
Qed.

Lemma X11_no_underscore_not_selected_witness :
  ~ List.In "scan0001.png"%string
      (selectFiles [ {| Name := "scan0001.png"; IsDir := false |} ] 5).
Proof.
  apply X11_no_underscore_not_selected. vm_compute. intuition discriminate.
Defined.

(** ** Runs of the handler *)

Section HandlerMore.

Lemma opened_app t t' : opened (t ++ t') = opened t ++ opened t'.
Proof. apply omap_app. Qed.

Lemma posted_app t t' : posted (t ++ t') = posted t ++ posted t'.
Proof. apply omap_app. Qed.

(** [callRubyEndpoint] always returns to the handler. *)
Lemma callRubyEndpoint_run w data t :
  exists r, callRubyEndpoint w data t = (inr r, t ++ notify_events w data).
Proof.
  unfold callRubyEndpoint, notify_events. cbv zeta.
  destruct (nonempty (Getenv w "API_ENDPOINT")); cbn [negb].
  - destruct (NewRequest w _); [eexists; unfold ret; now rewrite app_nil_r|].
    rewrite bind_run. cbn [emit].
    destruct (Do w _ _) as [err|status]; [eexists; reflexivity|].
    destruct (status =? 200); eexists; reflexivity.
  - eexists. unfold ret. now rewrite app_nil_r.
Qed.

Lemma batch_of_cons w fileName rest :
  batch_of w (fileName :: rest) =
    match barcode_of w fileName with
    | Some barcode => barcode :: batch_of w rest
    | None => batch_of w rest
    end.
Proof. reflexivity. Qed.

Lemma scan_events_cons w key fileName rest :
  scan_events w key (fileName :: rest) = file_events w key fileName ++ scan_events w key rest.
Proof. reflexivity. Qed.

(** The loop over the files as a whole: the batch and the trace. *)
Lemma processFiles_run w key files found t :
  processFiles w key files found t =
    (inr (found ++ batch_of w files), t ++ scan_events w key files).
Proof.
  revert found t. induction files as [|fileName rest IH]; intros found t.
  - cbn. unfold ret. now rewrite !app_nil_r.
  - cbn [processFiles]. rewrite bind_run. cbn [emit].
    rewrite batch_of_cons, scan_events_cons.
    unfold file_events, barcode_of.
    destruct (OpenImage w fileName) as [err|img]; cbv iota beta.
    { rewrite IH. f_equal. now rewrite <- app_assoc. }
    destruct (extractBarcodeFromImage (Lib w) img) as [attempted res].
    rewrite bind_run. cbn [emitAll fst snd].
    destruct res as [err|barcode]; cbv iota beta.
    { rewrite IH. f_equal. rewrite app_nil_r. repeat (rewrite <- app_assoc || rewrite <- app_comm_cons); reflexivity. }
    destruct (nonempty barcode).
    + rewrite bind_run.
      destruct (callRubyEndpoint_run w {| S3Key := key; BarcodeArray := [barcode] |}
                  ((t ++ [EvOpenImage fileName]) ++ map EvDecode attempted)) as [r ->].
      rewrite IH. f_equal; repeat (rewrite <- app_assoc || rewrite <- app_comm_cons); reflexivity.
    + rewrite IH. f_equal. rewrite app_nil_r. repeat (rewrite <- app_assoc || rewrite <- app_comm_cons); reflexivity.
Qed.

Lemma validate_ok pdfBytes t :
  String.prefix "%PDF" pdfBytes = true -> validate pdfBytes t = (inr tt, t).
Proof.
  intros Hp. unfold validate.
  destruct pdfBytes as [|c s]; [discriminate|].
  change (String.length (String c s) =? 0)%nat with false. cbv iota.
  apply magic_header in Hp. rewrite Hp. reflexivity.
Qed.

Lemma validate_cases pdfBytes t :
  (String.prefix "%PDF" pdfBytes = true /\ validate pdfBytes t = (inr tt, t)) \/
  (exists text err,
     validate pdfBytes t =
       (inl (Returned {| StatusCode := 400; Body := Text text |} (Some err)), t)).
Proof.
  destruct (String.prefix "%PDF" pdfBytes) eqn:Hp.
  - left. split; [reflexivity|]. now apply validate_ok.
  - right. destruct (String.string_dec pdfBytes EmptyString) as [->|Hne].
    + do 2 eexists. apply validate_empty.
    + do 2 eexists. now apply validate_no_header.
Qed.

Lemma check_cases r code text t :
  (r = None /\ check r code text t = (inr tt, t)) \/
  (exists err, check r code text t =
     (inl (Returned {| StatusCode := code; Body := Text text |} (Some err)), t)).
Proof. destruct r as [err|]; [right; now exists err|left; split; reflexivity]. Qed.

Lemma fetchDocument_cases w s3Event :
  (exists pdfBytes bucket key,
     fetchDocument w s3Event [] = (inr (pdfBytes, bucket, key), [])) \/
  (exists text err,
     fetchDocument w s3Event [] =
       (inl (Returned {| StatusCode := 500; Body := Text text |} (Some err)), [])) \/
  (fetchDocument w s3Event [] = (inl Panicked, []) /\
   Getenv w "TEST_PDF_PATH" = EmptyString /\ s3Event = []).
Proof.
  unfold fetchDocument. cbv zeta.
  destruct (nonempty (Getenv w "TEST_PDF_PATH")) eqn:En.
  - destruct (ReadFile w _) as [err|pdfBytes].
    + right. left. do 2 eexists. reflexivity.
    + left. do 3 eexists. reflexivity.
  - assert (He : Getenv w "TEST_PDF_PATH" = EmptyString).
    { unfold nonempty in En. apply negb_false_iff, String.eqb_eq in En. exact En. }
    destruct s3Event as [|record records].
    + right. right. repeat split. exact He.
    + unfold getS3Client. rewrite En.
      destruct (LoadDefaultConfig w) as [err|].
      * right. left. do 2 eexists. reflexivity.
      * destruct (GetObject w _ _) as [err|[err|pdfBytes]].
        -- right. left. do 2 eexists. reflexivity.
        -- right. left. do 2 eexists. reflexivity.
        -- left. do 3 eexists. reflexivity.
Qed.

(** The handler when every step before the scan succeeds. *)
Lemma HandleRequest_ready w s3Event pdfBytes bucket key files :
  ready w s3Event pdfBytes bucket key files ->
  HandleRequest w s3Event =
    (respond bucket key (batch_of w (selected w files)),
     EvExtractImages :: scan_events w key (selected w files)).
Proof.
  intros (Hf & Hp & H1 & H2 & H3 & H4 & H5).
  unfold HandleRequest, handler. cbv zeta.
  rewrite bind_run, Hf. rewrite bind_run, (validate_ok _ _ Hp).
  rewrite bind_run, H1. cbn [check]. unfold ret at 1.
  rewrite bind_run, H2. cbn [check]. unfold ret at 1.
  rewrite bind_run, H3. cbn [check]. unfold ret at 1.
  rewrite bind_run. cbn [emit app].
  rewrite bind_run, H4. cbn [check]. unfold ret at 1.
  rewrite H5. rewrite bind_run.
  fold (pageLimit_used (Getenv w "PDF_PAGE_LIMIT")). fold (selected w files).
  rewrite processFiles_run. reflexivity.
Qed.

(** The ways an invocation can end. *)
Lemma HandleRequest_cases w s3Event :
  (HandleRequest w s3Event = (Panicked, []) /\
   Getenv w "TEST_PDF_PATH" = EmptyString /\ s3Event = []) \/
  (exists code text err t,
     HandleRequest w s3Event =
       (Returned {| StatusCode := code; Body := Text text |} (Some err), t) /\
     (code = 400 \/ code = 500) /\ (t = [] \/ t = [EvExtractImages])) \/
  (exists pdfBytes bucket key files, ready w s3Event pdfBytes bucket key files).
Proof.
  destruct (fetchDocument_cases w s3Event) as
    [(pdfBytes & bucket & key & Hf)|[(text & err & Hf)|(Hf & He & Hs)]].
  2:{ right. left. exists 500, text, err, []. split; [|auto].
      unfold HandleRequest, handler. cbv zeta. now rewrite bind_run, Hf. }
  2:{ left. split; [|auto]. unfold HandleRequest, handler. cbv zeta. now rewrite bind_run, Hf. }
  destruct (validate_cases pdfBytes []) as [[Hp Hv]|(text & err & Hv)].
  2:{ right. left. exists 400, text, err, []. split; [|auto].
      unfold HandleRequest, handler. cbv zeta. now rewrite bind_run, Hf, bind_run, Hv. }
  destruct (check_cases (MkdirTemp w) 500 "Error creating temp directory" [])
    as [[H1 C1]|(err & C1)].
  2:{ right. left. exists 500, "Error creating temp directory"%string, err, []. split; [|auto].
      unfold HandleRequest, handler. cbv zeta.
      now rewrite bind_run, Hf, bind_run, Hv, bind_run, C1. }
  destruct (check_cases (WriteFile w pdfBytes) 500 "Error writing temporary PDF" [])
    as [[H2 C2]|(err & C2)].
  2:{ right. left. exists 500, "Error writing temporary PDF"%string, err, []. split; [|auto].
      unfold HandleRequest, handler. cbv zeta.
      now rewrite bind_run, Hf, bind_run, Hv, bind_run, C1, bind_run, C2. }
  destruct (check_cases (MkdirAll w) 500 "Error creating pages directory" [])
    as [[H3 C3]|(err & C3)].
  2:{ right. left. exists 500, "Error creating pages directory"%string, err, []. split; [|auto].
      unfold HandleRequest, handler. cbv zeta.
      now rewrite bind_run, Hf, bind_run, Hv, bind_run, C1, bind_run, C2, bind_run, C3. }
  destruct (check_cases (ExtractImagesFile w pdfBytes) 500 "Error extracting images from PDF"
                        [EvExtractImages]) as [[H4 C4]|(err & C4)].
  2:{ right. left.
      exists 500, "Error extracting images from PDF"%string, err, [EvExtractImages].
      split; [|auto]. unfold HandleRequest, handler. cbv zeta.
      rewrite bind_run, Hf, bind_run, Hv, bind_run, C1, bind_run, C2, bind_run, C3.
      rewrite bind_run. cbn [emit app]. now rewrite bind_run, C4. }
  destruct (ReadDir w) as [err|files] eqn:H5.
  { right. left.
    exists 500, "Error reading extracted images"%string, err, [EvExtractImages].
    split; [|auto]. unfold HandleRequest, handler. cbv zeta.
    rewrite bind_run, Hf, bind_run, Hv, bind_run, C1, bind_run, C2, bind_run, C3.
    rewrite bind_run. cbn [emit app]. rewrite bind_run, C4, H5. reflexivity. }
  right. right. exists pdfBytes, bucket, key, files. repeat split; assumption.
Qed.

Lemma respond_200 bucket key found :
  exists b, respond bucket key found =
              Returned {| StatusCode := 200; Body := Json b |} None /\
            Bucket b = bucket /\ Key b = key /\ Barcodes b = found.
Proof.
  unfold respond. destruct found as [|x found]; cbn; eexists; repeat split.
Qed.

End HandlerMore.

(** ** What the handler returns and does *)

Section TraceFacts.

Lemma opened_decodes rs : opened (map EvDecode rs) = [].
Proof. induction rs as [|r rs IH]; [reflexivity|exact IH]. Qed.

Lemma posted_decodes rs : posted (map EvDecode rs) = [].
Proof. induction rs as [|r rs IH]; [reflexivity|exact IH]. Qed.

Lemma opened_notify w data : opened (notify_events w data) = [].
Proof.
  unfold notify_events. cbv zeta. destruct (nonempty _); [|reflexivity].
  destruct (NewRequest w _); reflexivity.
Qed.

Lemma opened_file_events w key fileName : opened (file_events w key fileName) = [fileName].
Proof.
  unfold file_events. change (opened (EvOpenImage fileName :: ?l)) with (fileName :: opened l).
  f_equal. destruct (OpenImage w fileName) as [err|img]; [reflexivity|].
  rewrite opened_app, opened_decodes. destruct (barcode_of w fileName); [|reflexivity].
  apply opened_notify.
Qed.

(** The scan opens the files it is given, each once, in order. *)
Lemma opened_scan_events w key files : opened (scan_events w key files) = files.
Proof.
  induction files as [|fileName rest IH]; [reflexivity|].
  rewrite scan_events_cons, opened_app, opened_file_events, IH. reflexivity.
Qed.

Lemma posted_file_events w key fileName :
  posted (file_events w key fileName) =
    match barcode_of w fileName with
    | Some barcode => posted (notify_events w {| S3Key := key; BarcodeArray := [barcode] |})
    | None => []
    end.
Proof.
  unfold file_events. change (posted (EvOpenImage fileName :: ?l)) with (posted l).
  unfold barcode_of. destruct (OpenImage w fileName) as [err|img]; [reflexivity|].
  rewrite posted_app, posted_decodes. cbn [app].
  destruct (snd (extractBarcodeFromImage (Lib w) img)) as [err|text]; [reflexivity|].
  destruct (nonempty text); reflexivity.
Qed.

Lemma posted_scan_events w key files :
  posted (scan_events w key files) =
    barcode ← batch_of w files;
    posted (notify_events w {| S3Key := key; BarcodeArray := [barcode] |}).
Proof.
  induction files as [|fileName rest IH]; [reflexivity|].
  rewrite scan_events_cons, posted_app, posted_file_events, IH, batch_of_cons.
  destruct (barcode_of w fileName); reflexivity.
Qed.

Lemma barcode_of_nonempty w fileName barcode :
  barcode_of w fileName = Some barcode -> barcode <> EmptyString.
Proof.
  unfold barcode_of. destruct (OpenImage w fileName) as [err|img]; [discriminate|].
  destruct (snd _) as [err|text]; [discriminate|].
  destruct (nonempty text) eqn:E; [|discriminate]. intros [= <-] ->. discriminate.
Qed.

Lemma panic_without_record w :
  Getenv w "TEST_PDF_PATH" = EmptyString -> HandleRequest w [] = (Panicked, []).
Proof.
  intros He. unfold HandleRequest, handler. cbv zeta. rewrite bind_run.
  unfold fetchDocument. rewrite He. reflexivity.
Qed.

(** What a response with status 200 comes from. *)
Lemma HandleRequest_200 w s3Event resp err :
  fst (HandleRequest w s3Event) = Returned resp err -> StatusCode resp = 200 ->
  exists pdfBytes bucket key files, ready w s3Event pdfBytes bucket key files.
Proof.
  intros Hr Hs.
  destruct (HandleRequest_cases w s3Event) as
    [(Hp & _)|[(code & text & e & t & Hf & Hc & _)|Hready]].
  - rewrite Hp in Hr. discriminate.
  - rewrite Hf in Hr. injection Hr as <- <-. cbn in Hs. lia.
  - exact Hready.
Qed.

Lemma fetchDocument_notifier w newRequest do s3Event :
  fetchDocument (with_notifier w newRequest do) s3Event = fetchDocument w s3Event.
Proof. reflexivity. Qed.

Lemma batch_of_notifier w newRequest do files :
  batch_of (with_notifier w newRequest do) files = batch_of w files.
Proof. reflexivity. Qed.

End TraceFacts.

(** X12: a response of [HandleRequest] has status 200, 400 or 500. With
    200 the error is nil and the body is the marshalled result; with 400
    or 500 the error is not nil and the body is a plain message. *)
Theorem X12_status_and_error (w : World) (s3Event : list S3EventRecord)
        (resp : Response) (err : option error) :
  fst (HandleRequest w s3Event) = Returned resp err ->
  (StatusCode resp = 200 /\ err = None /\ exists b, Body resp = Json b) \/
  ((StatusCode resp = 400 \/ StatusCode resp = 500) /\
   (exists e, err = Some e) /\ exists text, Body resp = Text text).
Proof.
  intros Hr.
  destruct (HandleRequest_cases w s3Event) as
    [(Hp & _)|[(code & text & e & t & Hf & Hc & _)|(pdfBytes & bucket & key & files & Hready)]].
  - rewrite Hp in Hr. discriminate.
  - rewrite Hf in Hr. injection Hr as <- <-. right. cbn. eauto.
  - rewrite (HandleRequest_ready _ _ _ _ _ _ Hready) in Hr. cbn [fst] in Hr.
    destruct (respond_200 bucket key (batch_of w (selected w files))) as (b & Hb & _).
    rewrite Hb in Hr. injection Hr as <- <-. left. cbn. eauto.
Qed.

Lemma X12_status_and_error_witness :
  (400 = 200 /\ Some "invalid PDF format"%string = None /\
   exists b, Text "Invalid PDF format" = Json b) \/
  ((400 = 400 \/ 400 = 500) /\
   (exists e, Some "invalid PDF format"%string = Some e) /\
   exists text, Text "Invalid PDF format" = Text text).
Proof.
  apply (X12_status_and_error world_not_pdf []
           {| StatusCode := 400; Body := Text "Invalid PDF format" |}
           (Some "invalid PDF format"%string)).
  vm_compute. reflexivity.
Defined.

(** X13: the handler panics exactly when [TEST_PDF_PATH] is not set and
    the event carries no record: the first record is read without a
    check of the length. *)
Theorem X13_panic_iff_no_record (w : World) (s3Event : list S3EventRecord) :
  fst (HandleRequest w s3Event) = Panicked <->
  Getenv w "TEST_PDF_PATH" = EmptyString /\ s3Event = [].
Proof.
  split.
  - intros Hp.
    destruct (HandleRequest_cases w s3Event) as
      [(_ & H)|[(code & text & e & t & Hf & _)|(pdfBytes & bucket & key & files & Hready)]].
    + exact H.
    + rewrite Hf in Hp. discriminate.
    + rewrite (HandleRequest_ready _ _ _ _ _ _ Hready) in Hp. cbn [fst] in Hp.
      destruct (respond_200 bucket key (batch_of w (selected w files))) as (b & Hb & _).
      rewrite Hb in Hp. discriminate.
  - intros [He ->]. now rewrite panic_without_record.
Qed.

(** X14: a response with another status than 200 is returned before any
    file is opened: no image has been opened or decoded and nothing has
    been posted. *)
Theorem X14_failure_before_scan (w : World) (s3Event : list S3EventRecord)
        (resp : Response) (err : option error) :
  fst (HandleRequest w s3Event) = Returned resp err ->
  StatusCode resp <> 200 ->
  opened (snd (HandleRequest w s3Event)) = [] /\
  decoded (snd (HandleRequest w s3Event)) = [] /\
  posted (snd (HandleRequest w s3Event)) = [].
Proof.
  intros Hr Hs.
  destruct (HandleRequest_cases w s3Event) as
    [(Hp & _)|[(code & text & e & t & Hf & Hc & Ht)|(pdfBytes & bucket & key & files & Hready)]].
  - rewrite Hp in Hr. discriminate.
  - rewrite Hf. cbn [snd]. destruct Ht as [->| ->]; repeat split.
  - rewrite (HandleRequest_ready _ _ _ _ _ _ Hready) in Hr. cbn [fst] in Hr.
    destruct (respond_200 bucket key (batch_of w (selected w files))) as (b & Hb & _).
    rewrite Hb in Hr. injection Hr as <- <-. cbn in Hs. lia.
Qed.

Lemma X14_failure_before_scan_witness :
  opened (snd (HandleRequest world_not_pdf [])) = [] /\
  decoded (snd (HandleRequest world_not_pdf [])) = [] /\
  posted (snd (HandleRequest world_not_pdf [])) = [].
Proof.
  apply (X14_failure_before_scan world_not_pdf []
           {| StatusCode := 400; Body := Text "Invalid PDF format" |}
           (Some "invalid PDF format"%string)).
  - vm_compute. reflexivity.
  - cbn. discriminate.
Defined.

(** X15: when the handler answers 200, the files it has opened are the
    files selected from the directory listing, each opened once, in
    sorted order; a file that fails to open or to decode does not stop
    the scan. *)
Theorem X15_opens_selected_files (w : World) (s3Event : list S3EventRecord)
        (resp : Response) (err : option error) :
  fst (HandleRequest w s3Event) = Returned resp err ->
  StatusCode resp = 200 ->
  exists files, ReadDir w = inr files /\
    opened (snd (HandleRequest w s3Event)) =
      selectFiles files (pageLimit_used (Getenv w "PDF_PAGE_LIMIT")).
Proof.
  intros Hr Hs.
  destruct (HandleRequest_200 w s3Event resp err Hr Hs)
    as (pdfBytes & bucket & key & files & Hready).
  exists files. split; [apply Hready|].
  rewrite (HandleRequest_ready _ _ _ _ _ _ Hready). cbn [snd].
  change (opened (EvExtractImages :: ?l)) with (opened l).
  apply opened_scan_events.
Qed.

Lemma X15_opens_selected_files_witness :
  exists files, ReadDir world_one_barcode = inr files /\
    opened (snd (HandleRequest world_one_barcode [])) =
      selectFiles files (pageLimit_used (Getenv world_one_barcode "PDF_PAGE_LIMIT")).
Proof.
  apply (X15_opens_selected_files world_one_barcode []
           {| StatusCode := 200;
              Body := Json {| Bucket := "test-bucket"; Key := "doc.pdf";
                              Barcodes := ["ABC123"%string] |} |} None).
  - vm_compute. reflexivity.
  - reflexivity.
Defined.

(** X16: when the handler answers 200, the barcodes of the response are
    the texts decoded from the selected files, in the order of the scan
    and with repetitions kept; files that do not open, do not decode or
    decode to the empty text add nothing, and no barcode is empty. *)
Theorem X16_batch_in_scan_order (w : World) (s3Event : list S3EventRecord)
        (resp : Response) (err : option error) :
  fst (HandleRequest w s3Event) = Returned resp err ->
  StatusCode resp = 200 ->
  exists files b,
    ReadDir w = inr files /\ Body resp = Json b /\
    Barcodes b =
      batch_of w (selectFiles files (pageLimit_used (Getenv w "PDF_PAGE_LIMIT"))) /\
    Forall (fun barcode => barcode <> EmptyString) (Barcodes b).
Proof.
  intros Hr Hs.
  destruct (HandleRequest_200 w s3Event resp err Hr Hs)
    as (pdfBytes & bucket & key & files & Hready).
  rewrite (HandleRequest_ready _ _ _ _ _ _ Hready) in Hr. cbn [fst] in Hr.
  destruct (respond_200 bucket key (batch_of w (selected w files))) as (b & Hb & _ & _ & Hbar).
  rewrite Hb in Hr. injection Hr as <- <-.
  exists files, b. split; [apply Hready|]. split; [reflexivity|]. split; [exact Hbar|].
  rewrite Hbar. apply List.Forall_forall. intros barcode Hin.
  apply list_elem_of_In, list_elem_of_omap in Hin as (fileName & _ & Hf).
  eapply barcode_of_nonempty; eassumption.
Qed.

Lemma X16_batch_in_scan_order_witness :
  exists files b,
    ReadDir world_one_barcode = inr files /\
    Body {| StatusCode := 200;
            Body := Json {| Bucket := "test-bucket"; Key := "doc.pdf";
                            Barcodes := ["ABC123"%string] |} |} = Json b /\
    Barcodes b =
      batch_of world_one_barcode
        (selectFiles files (pageLimit_used (Getenv world_one_barcode "PDF_PAGE_LIMIT"))) /\
    Forall (fun barcode => barcode <> EmptyString) (Barcodes b).
Proof.
  apply (X16_batch_in_scan_order world_one_barcode []
           {| StatusCode := 200;
              Body := Json {| Bucket := "test-bucket"; Key := "doc.pdf";
                              Barcodes := ["ABC123"%string] |} |} None).
  - vm_compute. reflexivity.
  - reflexivity.
Defined.

(** X17: what the endpoint does never changes the answer of the handler:
    with any other behaviour of [http.NewRequest] and [client.Do] the
    outcome is the same. *)
Theorem X17_notifier_never_changes_outcome (w : World)
        (newRequest : string -> option error) (do : string -> BarcodeData -> error + Z)
        (s3Event : list S3EventRecord) :
  fst (HandleRequest (with_notifier w newRequest do) s3Event) = fst (HandleRequest w s3Event).
Proof.
  unfold HandleRequest, handler. cbv zeta.
  rewrite fetchDocument_notifier.
  cbn [with_notifier Getenv MkdirTemp WriteFile MkdirAll ExtractImagesFile ReadDir].
  rewrite !bind_run.
  destruct (fetchDocument w s3Event []) as [[o|[[pdfBytes bucket] key]] t0]; [reflexivity|].
  rewrite !bind_run. destruct (validate pdfBytes t0) as [[o|[]] t1]; [reflexivity|].
  rewrite !bind_run. destruct (check (MkdirTemp w) _ _ t1) as [[o|[]] t2]; [reflexivity|].
  rewrite !bind_run. destruct (check (WriteFile w pdfBytes) _ _ t2) as [[o|[]] t3]; [reflexivity|].
  rewrite !bind_run. destruct (check (MkdirAll w) _ _ t3) as [[o|[]] t4]; [reflexivity|].
  rewrite !bind_run. cbn [emit]. rewrite !bind_run.
  destruct (check (ExtractImagesFile w pdfBytes) _ _ _) as [[o|[]] t5]; [reflexivity|].
  destruct (ReadDir w) as [err|files]; [reflexivity|].
  rewrite !bind_run, !processFiles_run. reflexivity.
Qed.

(** ** Notifications *)

Section NotifyFacts.

Lemma nonempty_true s : nonempty s = true <-> s <> EmptyString.
Proof.
  unfold nonempty. rewrite negb_true_iff. split.
  - intros H ->. discriminate.
  - intros H. destruct s; [contradiction|reflexivity].
Qed.

Lemma nonempty_false s : nonempty s = false <-> s = EmptyString.
Proof.
  unfold nonempty. rewrite negb_false_iff. apply String.eqb_eq.
Qed.

Lemma bind_nil {A B} (f : A -> list B) (l : list A) :
  (forall x, f x = []) -> l ≫= f = [].
Proof. intros Hf. induction l as [|x l IH]; [reflexivity|]. cbn. now rewrite Hf, IH. Qed.


End NotifyFacts.

(** X18: without [API_ENDPOINT] the handler never posts anything,
    whatever it finds. *)
Theorem X18_no_endpoint_no_post (w : World) (s3Event : list S3EventRecord) :
  Getenv w "API_ENDPOINT" = EmptyString ->
  posted (snd (HandleRequest w s3Event)) = [].
Proof.
  intros He.
  destruct (HandleRequest_cases w s3Event) as
    [(Hp & _)|[(code & text & e & t & Hf & _ & Ht)|(pdfBytes & bucket & key & files & Hready)]].
  - now rewrite Hp.
  - rewrite Hf. cbn [snd]. destruct Ht as [->| ->]; reflexivity.
  - rewrite (HandleRequest_ready _ _ _ _ _ _ Hready). cbn [snd].
    change (posted (EvExtractImages :: ?l)) with (posted l).
    rewrite posted_scan_events.
    apply bind_nil.
    intros barcode. unfold notify_events. cbv zeta. rewrite He. reflexivity.
Qed.

Lemma X18_no_endpoint_no_post_witness :
  posted (snd (HandleRequest world_s3 [ {| BucketName := "scans"; ObjectKey := "a.pdf" |} ])) = [].
Proof. apply X18_no_endpoint_no_post. reflexivity. Defined.



(** X20: of the records of an event only the first is read; and when
    [TEST_PDF_PATH] is set the event is not read at all. *)
Theorem X20_only_first_record (w : World) (record : S3EventRecord)
        (records s3Event : list S3EventRecord) :
  HandleRequest w (record :: records) = HandleRequest w [record] /\
  (Getenv w "TEST_PDF_PATH" <> EmptyString -> HandleRequest w s3Event = HandleRequest w []).
Proof.
  split; [reflexivity|].
  intros He. apply nonempty_true in He.
  unfold HandleRequest, handler. cbv zeta. rewrite !bind_run.
  unfold fetchDocument. rewrite He. reflexivity.
Qed.

(** X21: [callRubyEndpoint] always returns to the handler. It returns nil
    exactly when the endpoint is configured, the request can be built
    and the endpoint answers 200; it posts one request when the endpoint
    is configured and the request can be built, and none otherwise. *)
Theorem X21_callRubyEndpoint_result (w : World) (data : BarcodeData) (t : list Event) :
  (exists r, fst (callRubyEndpoint w data t) = inr r) /\
  (fst (callRubyEndpoint w data t) = inr None <->
   Getenv w "API_ENDPOINT" <> EmptyString /\
   NewRequest w (Getenv w "API_ENDPOINT") = None /\
   Do w (Getenv w "API_ENDPOINT") data = inr 200) /\
  snd (callRubyEndpoint w data t) =
    t ++ (if nonempty (Getenv w "API_ENDPOINT")
          then match NewRequest w (Getenv w "API_ENDPOINT") with
               | Some _ => []
               | None => [EvPost (Getenv w "API_ENDPOINT") data]
               end
          else []).
Proof.
  unfold callRubyEndpoint. cbv zeta.
  destruct (nonempty (Getenv w "API_ENDPOINT")) eqn:En; cbn [negb].
  - apply nonempty_true in En.
    destruct (NewRequest w _) as [e|] eqn:Hn.
    + cbn. rewrite app_nil_r. split; [eauto|]. split; [|reflexivity].
      split; [discriminate|]. intros (_ & H & _). discriminate.
    + rewrite bind_run. cbn [emit].
      destruct (Do w _ _) as [e|status] eqn:Hd.
      * cbn. split; [eauto|]. split; [|reflexivity].
        split; [discriminate|]. intros (_ & _ & H). discriminate.
      * destruct (Z.eqb_spec status 200) as [->|Hne]; cbn.
        -- split; [eauto|]. split; [|reflexivity]. split; [auto|reflexivity].
        -- split; [eauto|]. split; [|reflexivity].
           split; [discriminate|]. intros (_ & _ & [= H]). contradiction.
  - apply nonempty_false in En. cbn. rewrite app_nil_r. split; [eauto|].
    split; [|reflexivity]. split; [discriminate|]. intros (H & _). contradiction.
Qed.

(** X25: the handler never opens a file outside the selection: every
    file it opens is a regular entry of the listing whose extension is not
    [.pdf] and whose page number, the second underscore-delimited token
    of its name, is at most the page limit in force. *)
Theorem X25_never_opens_unselected (w : World) (s3Event : list S3EventRecord)
        (name : string) :
  List.In name (opened (snd (HandleRequest w s3Event))) ->
  exists files file token pageNum,
    ReadDir w = inr files /\ List.In file files /\ Name file = name /\
    IsDir file = false /\ Ext name <> ".pdf"%string /\
    nth_error (Split name "_"%char) 1 = Some token /\
    Atoi token = Some pageNum /\
    pageNum <= pageLimit_used (Getenv w "PDF_PAGE_LIMIT").
Proof.
  intros Hin.
  destruct (HandleRequest_cases w s3Event) as
    [(Hp & _)|[(code & text & e & t & Hf & _ & Ht)|(pdfBytes & bucket & key & files & Hready)]].
  - rewrite Hp in Hin. destruct Hin.
  - rewrite Hf in Hin. cbn [snd] in Hin. destruct Ht as [->| ->]; destruct Hin.
  - rewrite (HandleRequest_ready _ _ _ _ _ _ Hready) in Hin. cbn [snd] in Hin.
    change (opened (EvExtractImages :: ?l)) with (opened l) in Hin.
    rewrite opened_scan_events in Hin. unfold selected in Hin.
    rewrite selectFiles_filter in Hin.
    apply (Permutation_in _ (Strings_perm _)) in Hin.
    apply in_map_iff in Hin as (file & <- & Hfile).
    apply filter_In in Hfile as [Hfile Hk].
    apply keep_spec in Hk as (H1 & H2 & token & pageNum & H3 & H4 & H5).
    exists files, file, token, pageNum. repeat split; try assumption. apply Hready.
Qed.

Lemma X25_never_opens_unselected_witness :
  exists files file token pageNum,
    ReadDir world_one_barcode = inr files /\ List.In file files /\
    Name file = "page_1_Im0.png"%string /\
    IsDir file = false /\ Ext "page_1_Im0.png" <> ".pdf"%string /\
    nth_error (Split "page_1_Im0.png" "_"%char) 1 = Some token /\
    Atoi token = Some pageNum /\
    pageNum <= pageLimit_used (Getenv world_one_barcode "PDF_PAGE_LIMIT").
Proof.
  apply (X25_never_opens_unselected world_one_barcode [] "page_1_Im0.png").
  vm_compute. left. reflexivity.
Defined.

Section WebhookFacts.
Import Webhook.


End WebhookFacts.

Import Webhook.


(** X23: [callRubyEndpoint] of the webhook version returns nil exactly
    when the URL and the token are configured, the request is built and
    sent, the body is read and the status is 200; without [WEBHOOK_URL]
    nothing is sent. *)
Theorem X23_webhook_call_result (w : World) (h : Http) (data : BarcodeData) :
  (fst (Webhook.callRubyEndpoint w h data) = None <->
   Getenv w "WEBHOOK_URL" <> EmptyString /\
   exists res body,
     fst (makeWebhookRequest w h "POST" (Getenv w "WEBHOOK_URL") data) = inr res /\
     ReadAll res = inr body /\ Status res = 200) /\
  (Getenv w "WEBHOOK_URL" = EmptyString -> snd (Webhook.callRubyEndpoint w h data) = []) /\
  (Getenv w "WEBHOOK_URL" <> EmptyString ->
   snd (Webhook.callRubyEndpoint w h data) =
     snd (makeWebhookRequest w h "POST" (Getenv w "WEBHOOK_URL") data)).
Proof.
  unfold Webhook.callRubyEndpoint, getWebhookURL. cbv zeta.
  destruct (nonempty (Getenv w "WEBHOOK_URL")) eqn:En; cbn [negb].
  - apply nonempty_true in En.
    destruct (makeWebhookRequest w h "POST" (Getenv w "WEBHOOK_URL") data) as [[e|res] sent].
    + cbn. split; [|split; [contradiction|reflexivity]].
      split; [discriminate|]. intros (_ & res & body & H & _). discriminate.
    + destruct (ReadAll res) as [e|body] eqn:Hb.
      * cbn. split; [|split; [contradiction|reflexivity]].
        split; [discriminate|]. intros (_ & res' & body' & [= <-] & H & _). congruence.
      * destruct (Z.eqb_spec (Status res) 200) as [Hs|Hs]; cbn.
        -- split; [|split; [contradiction|reflexivity]].
           split; [|reflexivity]. intros _. split; [assumption|]. eauto.
        -- split; [|split; [contradiction|reflexivity]].
           split; [discriminate|]. intros (_ & res' & body' & [= <-] & _ & H). contradiction.
  - apply nonempty_false in En. cbn.
    split; [|split; [reflexivity|contradiction]].
    split; [discriminate|]. intros (H & _). contradiction.
Qed.


